(** * unitech-client: the cart provider and the change-password form

    A shallow embedding of the two components of the client,
    [CartProvider] (the cart context) and [ChangePassword] (the form page),
    and the properties of their handlers.

    How the React component is read.  A handler closes over the state of the
    render it was created in ([cartItems] is a constant inside it); the
    [set...] calls it makes are queued and applied together when it returns;
    then the effect that depends on [cartItems] runs with the new list.  A
    handler is therefore a function from the rendered [cartItems] to the list
    of commands it issues, and [settle] is the commit followed by the
    effect.  The HTTP client and [getToken] are collaborators: the token is
    an argument and the server is a function from requests to replies. *)

From stdpp Require Import base option list gmap strings.
From Stdlib Require Import ZArith Lia Ascii DecimalString.

Local Open Scope string_scope.
Local Open Scope list_scope.

(** ** Numbers

    Prices, quantities and totals are JavaScript numbers.  The handlers only
    add, multiply and compare them with [<=], so the development is
    generic in the arithmetic: nothing below depends on a law of [+] or [*]. *)

Class Number (num : Type) := {
  num_zero : num;
  num_one : num;
  num_add : num → num → num;
  num_mul : num → num → num;
  num_le : num → num → bool
}.

Declare Scope num_scope.
Delimit Scope num_scope with num.
Notation "a + b" := (num_add a b) : num_scope.
Notation "a * b" := (num_mul a b) : num_scope.
Notation "a <= b" := (num_le a b) : num_scope.

(** ** Values that may be [undefined]

    A property that may be missing is an [option]; [None] is [undefined].
    [truthy] is the test of [if (x)] on such a string and [js_or] is [a || b]. *)

Definition truthy (x : option string) : bool :=
  match x with
  | Some s => bool_decide (s ≠ "")
  | None => false
  end.

Definition js_or (a b : option string) : option string :=
  if truthy a then a else b.

(** [a === b] on property values. *)
Definition strict_eq (a b : option string) : bool := bool_decide (a = b).

(** ** The objects of the cart *)

(** A product as the pages hand it to [addToCart]. *)
Module Product.
Record t (num : Type) := mk {
  _id : option string;
  id : option string;
  name : option string;
  title : option string;
  price : num
}.
#[global] Arguments mk {num} _ _ _ _ _.
#[global] Arguments _id {num} _.
#[global] Arguments id {num} _.
#[global] Arguments name {num} _.
#[global] Arguments title {num} _.
#[global] Arguments price {num} _.
End Product.

(** A line of the cart.  The guest path of [addToCart] stores the whole
    product ([{ ...product, quantity }]), so a line has the product's
    properties too. *)
Module Item.
Record t (num : Type) := mk {
  _id : option string;
  id : option string;
  name : option string;
  title : option string;
  price : num;
  quantity : num
}.
#[global] Arguments mk {num} _ _ _ _ _ _.
#[global] Arguments _id {num} _.
#[global] Arguments id {num} _.
#[global] Arguments name {num} _.
#[global] Arguments title {num} _.
#[global] Arguments price {num} _.
#[global] Arguments quantity {num} _.

(** [{ ...item, quantity: q }] *)
Definition with_quantity {num} (item : t num) (q : num) : t num :=
  mk (_id item) (id item) (name item) (title item) (price item) q.

(** [{ ...product, quantity }] *)
Definition of_product {num} (product : Product.t num) (q : num) : t num :=
  mk (Product._id product) (Product.id product) (Product.name product)
     (Product.title product) (Product.price product) q.
End Item.

(** An element of [res.data.cart.items] in the answer to [GET /api/cart]. *)
Module ServerItem.
Record t (num : Type) := mk {
  product_id : option string;
  name : option string;
  product : option (Product.t num);
  price : num;
  quantity : num
}.
#[global] Arguments mk {num} _ _ _ _ _.
#[global] Arguments product_id {num} _.
#[global] Arguments name {num} _.
#[global] Arguments product {num} _.
#[global] Arguments price {num} _.
#[global] Arguments quantity {num} _.
End ServerItem.

(** ** The browser's JSON

    [JSON.stringify] of a cart and [JSON.parse] of a stored text.  [None] is
    a text that is not the JSON of a list of lines ([JSON.parse] throws, or
    what it returns is not a cart). *)

Class Json (num : Type) := {
  JSON_stringify : list (Item.t num) → string;
  JSON_parse : string → option (list (Item.t num))
}.

(** ** The server *)

Inductive request (num : Type) :=
| POST_cart_items (productId : option string) (quantity : num)
| DELETE_cart_items (productId : option string)
| PUT_cart_items (productId : option string) (quantity : num)
| DELETE_cart
| GET_cart.
#[global] Arguments POST_cart_items {num} _ _.
#[global] Arguments DELETE_cart_items {num} _.
#[global] Arguments PUT_cart_items {num} _ _.
#[global] Arguments DELETE_cart {num}.
#[global] Arguments GET_cart {num}.

(** The promise of a call settles: it resolves, with [res?.data?.cart?.items]
    when the answer has one, or it rejects. *)
Inductive reply (num : Type) :=
| Resolved (items : option (list (ServerItem.t num)))
| Rejected.
#[global] Arguments Resolved {num} _.
#[global] Arguments Rejected {num}.

(** How a promise settles; an error carries its [message] and, when it came
    from the HTTP client, [response?.data?.message]. *)
Record js_error := mkError {
  error_message : string;
  response_message : option string
}.

Inductive settled (A : Type) :=
| Fulfilled (value : A)
| RejectedWith (err : js_error).
#[global] Arguments Fulfilled {A} _.
#[global] Arguments RejectedWith {A} _.

Section CartProvider.
Context {num : Type} `{Number num} `{Json num}.
Local Open Scope num_scope.

Local Abbreviation item := (Item.t num).
Local Abbreviation product := (Product.t num).

(** ** State and commands *)

Record state := mkState {
  cartItems : list item;
  totalPrice : num;
  localStorage : gmap string string
}.

Inductive cmd :=
| setCartItems (update : list item → list item)
| setTotalPrice (value : num)
| localStorage_setItem (key value : string)
| localStorage_removeItem (key : string).

Definition is_setCartItems (c : cmd) : bool :=
  match c with
  | setCartItems _ => true
  | _ => false
  end.

Definition execute (s : state) (c : cmd) : state :=
  match c with
  | setCartItems update =>
      mkState (update (cartItems s)) (totalPrice s) (localStorage s)
  | setTotalPrice value =>
      mkState (cartItems s) value (localStorage s)
  | localStorage_setItem key value =>
      mkState (cartItems s) (totalPrice s) (<[key:=value]> (localStorage s))
  | localStorage_removeItem key =>
      mkState (cartItems s) (totalPrice s) (delete key (localStorage s))
  end.

(** The commands of one handler run, applied in the order they were issued. *)
Definition commit (batch : list cmd) (s : state) : state :=
  fold_left execute batch s.

(** [items.reduce((total, item) => total + (item.price * item.quantity), 0)] *)
Definition reduce_total (items : list item) : num :=
  fold_left (λ total it, total + Item.price it * Item.quantity it) items num_zero.

Definition updateTotalPrice (cartItems : list item) : list cmd :=
  [setTotalPrice (reduce_total cartItems)].

(** The effect with dependency [[cartItems]]. *)
Definition cartItems_effect (cartItems : list item) : list cmd :=
  localStorage_setItem "cartItems" (JSON_stringify cartItems)
  :: updateTotalPrice cartItems.

(** Commit a batch and run the effect when the batch set [cartItems].  Every
    [setCartItems] of the provider passes an array that is not the current
    one ([filter], [map] and the spreads build new arrays, [[]] is new, and a
    rollback passes the array of an earlier render), so the dependency has
    changed whenever a batch sets it.  The effect sets only [totalPrice], so
    it does not run again. *)
Definition settle (batch : list cmd) (s : state) : state :=
  let s1 := commit batch s in
  if existsb is_setCartItems batch
  then commit (cartItems_effect (cartItems s1)) s1
  else s1.

(** A call whose promise is not awaited: the request, and what [.catch] does. *)
Record pending := mkPending {
  sent : request num;
  on_reject : list cmd
}.

Record effects := mkEffects {
  batch : list cmd;
  call : option pending
}.

(** ** The handlers *)

Definition removeFromCart (token : option string) (productId : option string)
    (cartItems : list item) : effects :=
  let prevItems := cartItems in
  let updatedItems :=
    List.filter (λ it, negb (strict_eq (Item.id it) productId)) prevItems in
  mkEffects
    [setCartItems (λ _, updatedItems); setTotalPrice (reduce_total updatedItems)]
    (if truthy token
     then Some (mkPending (DELETE_cart_items productId)
                  [setCartItems (λ _, prevItems);
                   setTotalPrice (reduce_total prevItems)])
     else None).

Definition updateQuantity (token : option string) (productId : option string)
    (newQuantity : num) (cartItems : list item) : effects :=
  if (newQuantity <= num_zero)%num
  then removeFromCart token productId cartItems
  else
    let prevItems := cartItems in
    let updatedItems :=
      map (λ it, if strict_eq (Item.id it) productId
                 then Item.with_quantity it newQuantity else it) prevItems in
    mkEffects
      [setCartItems (λ _, updatedItems); setTotalPrice (reduce_total updatedItems)]
      (if truthy token
       then Some (mkPending (PUT_cart_items productId newQuantity)
                    [setCartItems (λ _, prevItems);
                     setTotalPrice (reduce_total prevItems)])
       else None).

Definition clearCart (token : option string) (cartItems : list item) : effects :=
  let prevItems := cartItems in
  if truthy token
  then mkEffects
         [setCartItems (λ _, []); setTotalPrice num_zero]
         (Some (mkPending DELETE_cart
                  [setCartItems (λ _, prevItems);
                   setTotalPrice (reduce_total prevItems)]))
  else mkEffects
         [setCartItems (λ _, []); setTotalPrice num_zero;
          localStorage_removeItem "cartItems"]
         None.

(** [addToCart] awaits its [POST]; the reply decides between the two halves
    of the body.  [local] is the part after the [if (token)] block, reached by
    guests and after a failed [POST]. *)
Definition addToCart (token : option string) (api : request num → reply num)
    (product : product) (quantity : option num) (cartItems : list item)
    : effects :=
  let quantity := default num_one quantity in
  let local :=
    let existingItem :=
      find (λ it, strict_eq (Item.id it) (Product.id product)) cartItems in
    match existingItem with
    | Some existingItem =>
        let newQuantity := Item.quantity existingItem + quantity in
        if (newQuantity <= num_zero)%num
        then
          let removal := removeFromCart token (Product.id product) cartItems in
          mkEffects (batch removal ++ updateTotalPrice cartItems) (call removal)
        else
          mkEffects
            (setCartItems
               (λ prev, map (λ it, if strict_eq (Item.id it) (Product.id product)
                                   then Item.with_quantity it newQuantity
                                   else it) prev)
             :: updateTotalPrice cartItems)
            None
    | None =>
        mkEffects
          (setCartItems (λ prev, prev ++ [Item.of_product product quantity])
           :: updateTotalPrice cartItems)
          None
    end in
  if truthy token
  then
    let productId := js_or (Product._id product) (Product.id product) in
    match api (POST_cart_items productId quantity) with
    | Resolved _ =>
        let existingItem :=
          find (λ it, strict_eq (Item.id it) productId) cartItems in
        match existingItem with
        | Some existingItem =>
            let newQuantity := Item.quantity existingItem + quantity in
            mkEffects
              (setCartItems
                 (λ prev, map (λ it, if strict_eq (Item.id it) productId
                                     then Item.with_quantity it newQuantity
                                     else it) prev)
               :: updateTotalPrice cartItems)
              None
        | None =>
            mkEffects
              (setCartItems
                 (λ prev, prev ++ [Item.mk None productId None
                                     (js_or (Product.name product)
                                            (Product.title product))
                                     (Product.price product) quantity])
               :: updateTotalPrice cartItems)
              None
        end
    | Rejected => local
    end
  else local.

(** What [checkout] resolves with. *)
Record receipt := mkReceipt {
  success : bool;
  message : string
}.

(** [checkout]: how its promise settles, and what the timer callback issues
    before it resolves (nothing when the promise rejects at once). *)
Definition checkout (token : option string) (cartItems : list item)
    : settled receipt * effects :=
  if Nat.eqb (length cartItems) 0
  then (RejectedWith (mkError "Cart is empty" None), mkEffects [] None)
  else (Fulfilled (mkReceipt true "Checkout successful!"),
        clearCart token cartItems).

(** ** Running a handler *)

(** The state once the handler has returned and React has rendered again:
    the optimistic state when a call is still in flight. *)
Definition optimistic (e : effects) (s : state) : state :=
  settle (batch e) s.

(** The state once the server has answered the call, if one was made. *)
Definition complete (api : request num → reply num) (e : effects) (s : state)
    : state :=
  let s1 := optimistic e s in
  match call e with
  | Some p =>
      match api (sent p) with
      | Rejected => settle (on_reject p) s1
      | Resolved _ => s1
      end
  | None => s1
  end.

Inductive mutation :=
| AddToCart (product : product) (quantity : option num)
| RemoveFromCart (productId : option string)
| UpdateQuantity (productId : option string) (newQuantity : num)
| ClearCart.

Definition handle (token : option string) (api : request num → reply num)
    (m : mutation) (cartItems : list item) : effects :=
  match m with
  | AddToCart product quantity => addToCart token api product quantity cartItems
  | RemoveFromCart productId => removeFromCart token productId cartItems
  | UpdateQuantity productId newQuantity =>
      updateQuantity token productId newQuantity cartItems
  | ClearCart => clearCart token cartItems
  end.

(** A mutation called from the current render, up to the server's answer. *)
Definition perform (token : option string) (api : request num → reply num)
    (m : mutation) (s : state) : state :=
  complete api (handle token api m (cartItems s)) s.

(** ** Mount *)

(** The mapping of [res.data.cart.items] in [syncFromServer]. *)
Definition serverItem (i : ServerItem.t num) : item :=
  Item.mk None (ServerItem.product_id i) None
    (js_or (js_or (js_or (ServerItem.name i)
                         (ServerItem.product i ≫= Product.name))
                  (ServerItem.product i ≫= Product.title))
           (Some ""))
    (ServerItem.price i) (ServerItem.quantity i).

(** The first part of the mount effect: read the saved cart.  [None] when
    the saved text is not the JSON of a cart: [JSON.parse] throws, or the
    render of what it returned does. *)
Definition load_savedCart (storage : gmap string string) : option (list cmd) :=
  let savedCart := storage !! "cartItems" in
  if truthy savedCart
  then parsed ← savedCart ≫= JSON_parse; Some [setCartItems (λ _, parsed)]
  else Some [].

(** [syncFromServer] from the answer of [GET /api/cart] on, reading the
    storage as it is when the answer arrives: by then the effect has saved
    the cart, so the text under the key is one that [JSON.stringify] wrote.
    A [JSON.parse] that throws is inside the [try]: nothing is set. *)
Definition syncFromServer (token : option string)
    (api : request num → reply num) (storage : gmap string string)
    : list cmd :=
  if truthy token
  then
    match api GET_cart with
    | Resolved (Some items) =>
        let serverItems := map serverItem items in
        let localCart := storage !! "cartItems" in
        if negb (truthy localCart)
        then [setCartItems (λ _, serverItems)]
        else
          match localCart ≫= JSON_parse with
          | Some parsed =>
              if Nat.eqb (length parsed) 0
              then [setCartItems (λ _, serverItems)]
              else []
          | None => []
          end
    | Resolved None => []
    | Rejected => []
    end
  else [].

Definition initial (storage : gmap string string) : state :=
  mkState [] num_zero storage.

(** The first render has [cartItems = []]; both effects run with it, the
    mount effect first; then the loaded cart is rendered. *)
Definition mount_load (storage : gmap string string) : option state :=
  loaded ← load_savedCart storage;
  Some (settle (loaded ++ cartItems_effect []) (initial storage)).

(** Mount, up to the server's answer (which comes after the loaded cart was
    rendered and saved). *)
Definition mount (token : option string) (api : request num → reply num)
    (storage : gmap string string) : option state :=
  s1 ← mount_load storage;
  Some (settle (syncFromServer token api (localStorage s1)) s1).

(** ** What the properties are stated with *)

(** The total is the sum over the lines of price times quantity. *)
Definition totalled (s : state) : Prop :=
  totalPrice s = reduce_total (cartItems s).

(** The storage key holds the JSON of the cart. *)
Definition persisted (s : state) : Prop :=
  localStorage s !! "cartItems" = Some (JSON_stringify (cartItems s)).

(** [s'] shows the cart of [s] again: the same list, its total recomputed;
    and [s'] is [s] itself when [s] had its total and was saved. *)
Definition rolled_back (s s' : state) : Prop :=
  cartItems s' = cartItems s
  ∧ totalPrice s' = reduce_total (cartItems s)
  ∧ (totalled s → totalPrice s' = totalPrice s)
  ∧ (totalled s → persisted s → s' = s).

(** The browser writes this cart as a text that is not empty and reads it
    back as the same cart. *)
Definition round_trips (items : list item) : Prop :=
  JSON_stringify items ≠ "" ∧ JSON_parse (JSON_stringify items) = Some items.

(** The mapped server cart, when there is a session and the answer to
    [GET /api/cart] has one. *)
Definition server_cart (token : option string) (api : request num → reply num)
    : option (list item) :=
  if truthy token
  then match api GET_cart with
       | Resolved (Some items) => Some (map serverItem items)
       | _ => None
       end
  else None.

(** The states the provider settles in, each one once its effects have run:
    after mount, before and after the server's answer, and after each
    mutation or checkout called from the current render, while its call is
    in flight and once it is answered. *)
Inductive reachable : state → Prop :=
| reach_load storage s :
    mount_load storage = Some s → reachable s
| reach_mount token api storage s :
    mount token api storage = Some s → reachable s
| reach_optimistic token api m s :
    reachable s → reachable (optimistic (handle token api m (cartItems s)) s)
| reach_perform token api m s :
    reachable s → reachable (perform token api m s)
| reach_checkout token api s :
    reachable s →
    reachable (complete api (checkout token (cartItems s)).2 s).

End CartProvider.

(** ** The change-password form *)

Module ChangePassword.

(** A field value is a string of UTF-16 code units: the rule on the new
    password is a regular expression, which is read code unit by code unit. *)
Abbreviation jsstring := (list N).

Definition js (s : string) : jsstring :=
  (λ c, Ascii.N_of_ascii c) <$> String.list_ascii_of_string s.

Definition truthy_value (x : option jsstring) : bool :=
  match x with
  | Some (_ :: _) => true
  | _ => false
  end.

(** *** The fragment of regular expressions the rule is written in *)

Inductive re :=
| Eps
| Class (p : N → bool)
| DotStar
| Seq (r1 r2 : re)
| Lookahead (r : re).

Definition in_range (lo hi c : N) : bool := (lo <=? c)%N && (c <=? hi)%N.

(** [[a-z]], [[A-Z]] and [\d] (no [i] and no [u] flag). *)
Definition lower : N → bool := in_range 97 122.
Definition upper : N → bool := in_range 65 90.
Definition digit : N → bool := in_range 48 57.

(** LF, CR, U+2028 and U+2029: what [.] does not match (no [s] flag). *)
Definition line_terminator (c : N) : bool :=
  (c =? 10)%N || (c =? 13)%N || (c =? 8232)%N || (c =? 8233)%N.

(** [.*] followed by [k]: some run of characters that are not line
    terminators, then [k] on the rest. *)
Fixpoint dot_star (k : jsstring → bool) (s : jsstring) : bool :=
  k s ||
  match s with
  | c :: s' => negb (line_terminator c) && dot_star k s'
  | [] => false
  end.

(** [r] matches a prefix of [s] and [k] accepts what follows. *)
Fixpoint re_match (r : re) (s : jsstring) (k : jsstring → bool) : bool :=
  match r with
  | Eps => k s
  | Class p =>
      match s with
      | c :: s' => p c && k s'
      | [] => false
      end
  | DotStar => dot_star k s
  | Seq r1 r2 => re_match r1 s (λ s', re_match r2 s' k)
  | Lookahead r1 => re_match r1 s (λ _, true) && k s
  end.

(** [r.test(s)]: a match starting at some position of [s]. *)
Fixpoint re_test (r : re) (s : jsstring) : bool :=
  re_match r s (λ _, true) ||
  match s with
  | _ :: s' => re_test r s'
  | [] => false
  end.

(** [/(?=.*[a-z])(?=.*[A-Z])(?=.*\d)/] *)
Definition password_rule : re :=
  Seq (Lookahead (Seq DotStar (Class lower)))
      (Seq (Lookahead (Seq DotStar (Class upper)))
           (Lookahead (Seq DotStar (Class digit)))).

(** *** The component *)

Record form := mkForm {
  loading : bool;
  success : string;
  error : string;
  formData : gmap string jsstring;
  errors : gmap string string
}.

Definition setLoading (v : bool) (s : form) : form :=
  mkForm v (success s) (error s) (formData s) (errors s).
Definition setSuccess (v : string) (s : form) : form :=
  mkForm (loading s) v (error s) (formData s) (errors s).
Definition setError (v : string) (s : form) : form :=
  mkForm (loading s) (success s) v (formData s) (errors s).
Definition setFormData (update : gmap string jsstring → gmap string jsstring)
    (s : form) : form :=
  mkForm (loading s) (success s) (error s) (update (formData s)) (errors s).
Definition setErrors (update : gmap string string → gmap string string)
    (s : form) : form :=
  mkForm (loading s) (success s) (error s) (formData s) (update (errors s)).

(** The state of the first render. *)
Definition blank : gmap string jsstring :=
  <["currentPassword" := []]> (<["newPassword" := []]>
    (<["confirmPassword" := []]> ∅)).

Definition initial : form := mkForm false "" "" blank ∅.

(** [validateForm]: the errors it hands to [setErrors], and what it returns. *)
Definition validateForm (formData : gmap string jsstring)
    : gmap string string * bool :=
  let newErrors : gmap string string := ∅ in
  let newErrors :=
    if negb (truthy_value (formData !! "currentPassword"))
    then <["currentPassword" := "Current password is required"]> newErrors
    else newErrors in
  let newErrors :=
    if negb (truthy_value (formData !! "newPassword"))
    then <["newPassword" := "New password is required"]> newErrors
    else if (length (default [] (formData !! "newPassword")) <? 8)%nat
    then <["newPassword" := "Password must be at least 8 characters long"]>
           newErrors
    else if negb (re_test password_rule (default [] (formData !! "newPassword")))
    then <["newPassword" :=
             "Password must contain at least one uppercase letter, one lowercase letter, and one number"]>
           newErrors
    else newErrors in
  let newErrors :=
    if negb (truthy_value (formData !! "confirmPassword"))
    then <["confirmPassword" := "Please confirm your new password"]> newErrors
    else if negb (bool_decide (formData !! "newPassword"
                               = formData !! "confirmPassword"))
    then <["confirmPassword" := "Passwords do not match"]> newErrors
    else newErrors in
  (newErrors, bool_decide (size newErrors = 0)).

(** [handleChange] for an event whose target has this [name] and [value]. *)
Definition handleChange (name : string) (value : jsstring) (s : form) : form :=
  let s1 := setFormData (λ prev, <[name := value]> prev) s in
  if truthy (errors s !! name)
  then setErrors (λ prev, <[name := ""]> prev) s1
  else s1.

(** [new Promise(resolve => setTimeout(resolve, 1500))]: the executor only
    ever calls [resolve]. *)
Definition simulated_request : settled unit := Fulfilled tt.

(** [handleSubmit], up to the end of its [finally]. *)
Definition handleSubmit (s : form) : form :=
  let s := setError "" s in
  let s := setSuccess "" s in
  let '(newErrors, valid) := validateForm (formData s) in
  let s := setErrors (λ _, newErrors) s in
  if negb valid
  then s
  else
    let s := setLoading true s in
    let s :=
      match simulated_request with
      | Fulfilled _ =>
          let s := setSuccess "Password changed successfully!" s in
          setFormData (λ _, blank) s
      | RejectedWith err =>
          setError
            (default
               "Failed to change password. Please check your current password and try again."
               (js_or (response_message err) None))
            s
      end in
    setLoading false s.

(** *** The rules in words

    The form is valid when the current password is not empty; the new
    password is not empty, has at least 8 characters and contains a lower
    case letter, an upper case letter and a digit; and the confirmation is
    not empty and equal to the new password. *)
Definition stated_rules (formData : gmap string jsstring) : Prop :=
  ∃ current new confirm,
    formData !! "currentPassword" = Some current ∧ current ≠ []
    ∧ formData !! "newPassword" = Some new ∧ new ≠ []
    ∧ (8 ≤ length new)%nat
    ∧ Exists (λ c, lower c = true) new
    ∧ Exists (λ c, upper c = true) new
    ∧ Exists (λ c, digit c = true) new
    ∧ formData !! "confirmPassword" = Some confirm ∧ confirm ≠ []
    ∧ confirm = new.

(** A text without line terminators. *)
Definition one_line (text : jsstring) : Prop :=
  Forall (λ c, line_terminator c = false) text.

(** A class of characters with no line terminator in it. *)
Definition printable (p : N → bool) : Prop :=
  ∀ c, p c = true → line_terminator c = false.

(** The text up to its first line terminator, and the lines of a text. *)
Fixpoint first_line (text : jsstring) : jsstring :=
  match text with
  | [] => []
  | c :: rest => if line_terminator c then [] else c :: first_line rest
  end.

Fixpoint lines (text : jsstring) : list jsstring :=
  match text with
  | [] => [[]]
  | c :: rest =>
      if line_terminator c then [] :: lines rest
      else match lines rest with
           | line :: more => (c :: line) :: more
           | [] => [[c]]
           end
  end.

(** A lower case letter, an upper case letter and a digit, all in [text]. *)
Definition has_all_three (text : jsstring) : bool :=
  existsb lower text && existsb upper text && existsb digit text.

(** The rules as [validateForm] applies them: the three kinds of characters
    are looked for on one line of the new password. *)
Definition applied_rules (formData : gmap string jsstring) : Prop :=
  ∃ current new confirm,
    formData !! "currentPassword" = Some current ∧ current ≠ []
    ∧ formData !! "newPassword" = Some new ∧ new ≠ []
    ∧ (8 ≤ length new)%nat
    ∧ Exists (λ line, has_all_three line = true) (lines new)
    ∧ formData !! "confirmPassword" = Some confirm ∧ confirm ≠ []
    ∧ confirm = new.

(** A password with U+2028 (a line separator, which a pasted text can carry
    into an input) between its lower case letters and the rest. *)
Definition separated_password : jsstring :=
  js "aaaaaaaa" ++ [8232%N] ++ js "A1".

Definition separated_form : gmap string jsstring :=
  <["currentPassword" := js "old-secret"]>
    (<["newPassword" := separated_password]>
       (<["confirmPassword" := separated_password]> ∅)).

(** *** What the page shows of the errors *)

(** [error={!!errors.currentPassword}] and its like: whether the field
    [name] is shown in error. *)
Definition field_error (name : string) (s : form) : bool :=
  truthy (errors s !! name).

(** The names of the three fields. *)
Definition fields : list string :=
  ["currentPassword"; "newPassword"; "confirmPassword"].

(** The message [validateForm] records for each field, read off its tests. *)
Definition currentPassword_message (formData : gmap string jsstring)
    : option string :=
  if truthy_value (formData !! "currentPassword") then None
  else Some "Current password is required".

Definition newPassword_message (formData : gmap string jsstring)
    : option string :=
  match formData !! "newPassword" with
  | Some (c :: new) =>
      if (length (c :: new) <? 8)%nat
      then Some "Password must be at least 8 characters long"
      else if existsb has_all_three (lines (c :: new)) then None
      else Some "Password must contain at least one uppercase letter, one lowercase letter, and one number"
  | _ => Some "New password is required"
  end.

Definition confirmPassword_message (formData : gmap string jsstring)
    : option string :=
  match formData !! "confirmPassword" with
  | Some (c :: confirm) =>
      if bool_decide (formData !! "newPassword" = Some (c :: confirm))
      then None
      else Some "Passwords do not match"
  | _ => Some "Please confirm your new password"
  end.

End ChangePassword.

(** ** Integer amounts, and a JSON codec for them

    The instances the examples run on: amounts in whole units ([Z]), and
    carts written and read as JSON text without white space, the way
    [JSON.stringify] writes them. *)

#[export] Instance Z_number : Number Z := {|
  num_zero := 0%Z;
  num_one := 1%Z;
  num_add := Z.add;
  num_mul := Z.mul;
  num_le := Z.leb
|}.

Module ZJson.

Definition dquote : ascii := Ascii.ascii_of_N 34.
Definition backslash : ascii := Ascii.ascii_of_N 92.

Definition chars (s : string) : list ascii := String.list_ascii_of_string s.
Definition text (cs : list ascii) : string := String.string_of_list_ascii cs.

(** *** Writing *)

Definition escape (s : string) : list ascii :=
  c ← chars s;
  if bool_decide (c = dquote ∨ c = backslash) then [backslash; c] else [c].

Definition quoted (s : string) : list ascii :=
  dquote :: escape s ++ [dquote].

Definition decimal (z : Z) : list ascii :=
  chars (DecimalString.NilZero.string_of_int (Z.to_int z)).

Definition member (key : string) (value : list ascii) : list ascii :=
  quoted key ++ chars ":" ++ value.

Definition optional (key : string) (value : option string)
    : list (list ascii) :=
  match value with
  | Some v => [member key (quoted v)]
  | None => []
  end.

Fixpoint join (parts : list (list ascii)) : list ascii :=
  match parts with
  | [] => []
  | [p] => p
  | p :: rest => p ++ chars "," ++ join rest
  end.

Definition object (it : Item.t Z) : list ascii :=
  chars "{"
  ++ join (optional "_id" (Item._id it) ++ optional "id" (Item.id it)
           ++ optional "name" (Item.name it) ++ optional "title" (Item.title it)
           ++ [member "price" (decimal (Item.price it));
               member "quantity" (decimal (Item.quantity it))])
  ++ chars "}".

Definition stringify (items : list (Item.t Z)) : string :=
  text (chars "[" ++ join (object <$> items) ++ chars "]").

(** *** Reading *)

Inductive token :=
| LBrack | RBrack | LBrace | RBrace | Comma | Colon
| TStr (s : string)
| TNum (z : Z).

Inductive mode :=
| Plain
| InStr (seen : list ascii) (escaped : bool)
| InNum (seen : list ascii).

Definition is_digit (c : ascii) : bool :=
  let n := Ascii.N_of_ascii c in (48 <=? n)%N && (n <=? 57)%N.

Definition number (seen : list ascii) : option token :=
  i ← DecimalString.NilZero.int_of_string (text (rev seen));
  Some (TNum (Z.of_int i)).

(** What a character outside strings and numbers starts or is. *)
Definition plain (c : ascii) : option (token + mode) :=
  if bool_decide (c = dquote) then Some (inr (InStr [] false))
  else if is_digit c || bool_decide (c = "-"%char) then Some (inr (InNum [c]))
  else if bool_decide (c = "["%char) then Some (inl LBrack)
  else if bool_decide (c = "]"%char) then Some (inl RBrack)
  else if bool_decide (c = "{"%char) then Some (inl LBrace)
  else if bool_decide (c = "}"%char) then Some (inl RBrace)
  else if bool_decide (c = ","%char) then Some (inl Comma)
  else if bool_decide (c = ":"%char) then Some (inl Colon)
  else None.

Fixpoint lex (m : mode) (cs : list ascii) : option (list token) :=
  match cs with
  | [] =>
      match m with
      | Plain => Some []
      | InStr _ _ => None
      | InNum seen => n ← number seen; Some [n]
      end
  | c :: cs' =>
      match m with
      | Plain =>
          match plain c with
          | Some (inl t) => ts ← lex Plain cs'; Some (t :: ts)
          | Some (inr m') => lex m' cs'
          | None => None
          end
      | InStr seen true => lex (InStr (c :: seen) false) cs'
      | InStr seen false =>
          if bool_decide (c = dquote)
          then ts ← lex Plain cs'; Some (TStr (text (rev seen)) :: ts)
          else if bool_decide (c = backslash) then lex (InStr seen true) cs'
          else lex (InStr (c :: seen) false) cs'
      | InNum seen =>
          if is_digit c then lex (InNum (c :: seen)) cs'
          else
            n ← number seen;
            match plain c with
            | Some (inl t) => ts ← lex Plain cs'; Some (n :: t :: ts)
            | Some (inr m') => ts ← lex m' cs'; Some (n :: ts)
            | None => None
            end
      end
  end.

Inductive value :=
| VStr (s : string)
| VNum (z : Z).

Definition value_of (t : token) : option value :=
  match t with
  | TStr s => Some (VStr s)
  | TNum z => Some (VNum z)
  | _ => None
  end.

(** The members of an object, after its opening brace. *)
Fixpoint members (ts : list token)
    : option (list (string * value) * list token) :=
  match ts with
  | TStr key :: Colon :: t :: sep :: rest =>
      v ← value_of t;
      match sep with
      | RBrace => Some ([(key, v)], rest)
      | Comma => '(more, rest') ← members rest; Some ((key, v) :: more, rest')
      | _ => None
      end
  | _ => None
  end.

Definition property (key : string) (o : list (string * value)) : option value :=
  snd <$> find (λ kv, bool_decide (kv.1 = key)) o.

Definition string_property (key : string) (o : list (string * value))
    : option string :=
  match property key o with
  | Some (VStr s) => Some s
  | _ => None
  end.

Definition number_property (key : string) (o : list (string * value))
    : option Z :=
  match property key o with
  | Some (VNum z) => Some z
  | _ => None
  end.

Definition line (o : list (string * value)) : option (Item.t Z) :=
  price ← number_property "price" o;
  quantity ← number_property "quantity" o;
  Some (Item.mk (string_property "_id" o) (string_property "id" o)
          (string_property "name" o) (string_property "title" o)
          price quantity).

(** The objects of an array, after its opening bracket or a comma. *)
Fixpoint objects (fuel : nat) (ts : list token) : option (list (Item.t Z)) :=
  match fuel with
  | O => None
  | S fuel' =>
      match ts with
      | LBrace :: ts' =>
          '(o, rest) ← members ts';
          it ← line o;
          match rest with
          | [RBrack] => Some [it]
          | Comma :: rest' => more ← objects fuel' rest'; Some (it :: more)
          | _ => None
          end
      | _ => None
      end
  end.

Definition parse (s : string) : option (list (Item.t Z)) :=
  ts ← lex Plain (chars s);
  match ts with
  | [LBrack; RBrack] => Some []
  | LBrack :: ts' => objects (length ts') ts'
  | _ => None
  end.

End ZJson.

#[export] Instance Z_json : Json Z := {|
  JSON_stringify := ZJson.stringify;
  JSON_parse := ZJson.parse
|}.

(** ** More vocabulary for the cart *)

Section CartVocabulary.
Context {num : Type} `{Number num} `{Json num}.

(** The ids of the lines, in order. *)
Definition ids (items : list (Item.t num)) : list (option string) :=
  Item.id <$> items.

(** No two lines have the same id. *)
Definition distinct_ids (items : list (Item.t num)) : Prop :=
  NoDup (ids items).

(** The server does not reject the call the handler leaves in flight. *)
Definition accepted (api : request num → reply num) (e : effects) : Prop :=
  ∀ p, call e = Some p → api (sent p) ≠ Rejected.

(** [quantity: q] on the lines of [productId], as the handlers map it. *)
Definition set_quantity (productId : option string) (q : num)
    (items : list (Item.t num)) : list (Item.t num) :=
  (λ it, if decide (Item.id it = productId)
         then Item.with_quantity it q else it) <$> items.

(** The sum of price times quantity over the lines of a cart, said without
    the provider's [reduce]: the empty cart sums to zero, and a cart with one
    more line at its end sums to what the lines before it sum to, plus the
    price of that line times its quantity. *)
Inductive sums_to : list (Item.t num) → num → Prop :=
| sums_nil : sums_to [] num_zero
| sums_snoc items it total :
    sums_to items total →
    sums_to (items ++ [it]) (total + Item.price it * Item.quantity it)%num.

(** A command that leaves the storage keys other than [cartItems] alone. *)
Definition own_key (c : @cmd num) : bool :=
  match c with
  | localStorage_setItem key _ => bool_decide (key = "cartItems")
  | localStorage_removeItem key => bool_decide (key = "cartItems")
  | _ => true
  end.

End CartVocabulary.

(** For integer amounts, the sum in the usual sense: the amounts of the
    lines added up, here from the last line to the first. *)
Definition Z_total (items : list (Item.t Z)) : Z :=
  foldr (λ it rest, (Item.price it * Item.quantity it + rest)%Z) 0%Z items.

(** ** A shop to run the handlers on *)

Module Examples.

Definition pen : Item.t Z :=
  Item.mk None (Some "p1") None (Some "Pen") 10%Z 2%Z.
Definition ink : Item.t Z :=
  Item.mk (Some "x9") (Some "p2") (Some "Ink") None 25%Z 1%Z.
Definition cart : list (Item.t Z) := [pen; ink].

Definition pen_product : Product.t Z :=
  Product.mk None (Some "p1") None (Some "Pen") 10%Z.

Definition cup : ServerItem.t Z :=
  ServerItem.mk (Some "p7") None
    (Some (Product.mk None None (Some "Cup") None 3%Z)) 3%Z 4%Z.

Definition session : option string := Some "eyJhbGciOi".
Definition guest : option string := None.

(** A server that fails every call, and one that answers with a cart. *)
Definition failing : request Z → reply Z := λ _, Rejected.
Definition serving : request Z → reply Z := λ _, Resolved (Some [cup]).

(** A browser that saved [cart] in an earlier visit. *)
Definition saved_storage : gmap string string :=
  {["cartItems" := JSON_stringify cart]}.

(** The provider showing [cart], total computed and cart saved. *)
Definition shop : state :=
  mkState cart 45%Z {["cartItems" := JSON_stringify cart]}.

(** What mount makes of [saved_storage], whatever the server says. *)
Definition mounted : state :=
  mkState cart 45%Z
    (<["cartItems" := JSON_stringify cart]>
       (<["cartItems" := JSON_stringify []]> saved_storage)).

(** A form filled in with a password that follows the rules. *)
Definition filled : ChangePassword.form :=
  ChangePassword.mkForm false "" ""
    (<["currentPassword" := ChangePassword.js "old-secret"]>
       (<["newPassword" := ChangePassword.js "Abcdefg1"]>
          (<["confirmPassword" := ChangePassword.js "Abcdefg1"]> ∅)))
    {["newPassword" := "New password is required"]}.

(** A product that has no line in [cart]. *)
Definition mug_product : Product.t Z :=
  Product.mk (Some "m5") (Some "p5") (Some "Mug") None 7%Z.

(** The browser of a signed-in user: the token is in the storage too. *)
Definition signed_in : state :=
  mkState cart 45%Z
    (<["token" := "eyJhbGciOi"]> {["cartItems" := JSON_stringify cart]}).


(** A form with a new password that is too short. *)
Definition hasty : ChangePassword.form :=
  ChangePassword.mkForm false "" ""
    (<["currentPassword" := ChangePassword.js "old-secret"]>
       (<["newPassword" := ChangePassword.js "Ab1"]>
          (<["confirmPassword" := ChangePassword.js "Ab1"]> ∅)))
    ∅.

End Examples.

(** * Properties of the cart provider *)

Section CartProperties.
Context {num : Type} `{Number num} `{Json num}.

Local Abbreviation item := (Item.t num).
Local Abbreviation state := (@state num).
Local Abbreviation cmd := (@cmd num).

Implicit Types (s : state) (b : list cmd) (items : list item).
Implicit Types (token productId : option string) (api : request num → reply num).

(** ** Commit and effect *)

Lemma commit_effect items s :
  commit (cartItems_effect items) s
  = mkState (cartItems s) (reduce_total items)
      (<["cartItems" := JSON_stringify items]> (localStorage s)).
Proof. reflexivity. Qed.

Lemma settle_set b s :
  existsb is_setCartItems b = true →
  settle b s
  = mkState (cartItems (commit b s)) (reduce_total (cartItems (commit b s)))
      (<["cartItems" := JSON_stringify (cartItems (commit b s))]>
         (localStorage (commit b s))).
Proof. intros Hset. unfold settle. rewrite Hset. apply commit_effect. Qed.

Lemma settle_unset b s :
  existsb is_setCartItems b = false → settle b s = commit b s.
Proof. intros Hset. unfold settle. by rewrite Hset. Qed.

(** A batch without [setCartItems] leaves the cart as it is. *)
Lemma commit_unset_cart b s :
  existsb is_setCartItems b = false → cartItems (commit b s) = cartItems s.
Proof.
  revert s. induction b as [|c b IH]; intros s Hset; [done|].
  simpl in Hset. apply orb_false_iff in Hset as [Hc Hb].
  change (commit (c :: b) s) with (commit b (execute s c)).
  rewrite IH by done. by destruct c.
Qed.

Lemma settle_totalled b s :
  existsb is_setCartItems b = true → totalled (settle b s).
Proof. intros Hset. by rewrite settle_set. Qed.

Lemma settle_persisted b s :
  existsb is_setCartItems b = true → persisted (settle b s).
Proof.
  intros Hset. rewrite settle_set by done. unfold persisted. simpl.
  apply lookup_insert_eq.
Qed.

(** ** The handlers set the cart *)

Lemma removeFromCart_sets token productId items :
  existsb is_setCartItems (batch (removeFromCart token productId items)) = true.
Proof. done. Qed.

Lemma handle_sets_cart token api m items :
  existsb is_setCartItems (batch (handle token api m items)) = true.
Proof.
  destruct m; simpl;
    unfold addToCart, updateQuantity, clearCart; repeat case_match; done.
Qed.

Lemma reject_sets_cart token api m items p :
  call (handle token api m items) = Some p →
  existsb is_setCartItems (on_reject p) = true.
Proof.
  destruct m; simpl;
    unfold addToCart, updateQuantity, clearCart, removeFromCart;
    repeat case_match; simpl; intros [= <-]; done.
Qed.

(** Whatever the server answers, a handler that set the cart ends in a state
    produced by [settle] on a batch that set it. *)
Lemma complete_settled api (e : effects) s (P : state → Prop) :
  existsb is_setCartItems (batch e) = true →
  (∀ p, call e = Some p → existsb is_setCartItems (on_reject p) = true) →
  (∀ b s0, existsb is_setCartItems b = true → P (settle b s0)) →
  P (complete api e s).
Proof.
  intros Hbatch Hreject HP. unfold complete, optimistic.
  destruct (call e) as [p|] eqn:Hcall; [|by apply HP].
  destruct (api (sent p)); [by apply HP|].
  apply HP. by apply Hreject.
Qed.

(** [filter] with the test [item.id !== productId] keeps exactly the lines
    whose id is not [productId]. *)
Lemma filter_other_ids productId items :
  List.filter (λ it, negb (strict_eq (Item.id it) productId)) items
  = filter (λ it, Item.id it ≠ productId) items.
Proof.
  induction items as [|it items IH]; [done|].
  rewrite filter_cons. simpl. rewrite IH. unfold strict_eq.
  destruct (decide (Item.id it = productId)) as [Heq|Hne].
  - rewrite bool_decide_eq_true_2 by done. simpl.
    by rewrite decide_False by (intros Hne; by apply Hne).
  - rewrite bool_decide_eq_false_2 by done. simpl.
    by rewrite decide_True by done.
Qed.

(** The cart right after [removeFromCart], shared by the statements below. *)
Lemma removeFromCart_cart token productId s :
  cartItems (optimistic (removeFromCart token productId (cartItems s)) s)
  = filter (λ it, Item.id it ≠ productId) (cartItems s).
Proof.
  unfold optimistic. rewrite settle_set by apply removeFromCart_sets.
  simpl. apply filter_other_ids.
Qed.

(** ** The total as a sum *)

Lemma reduce_total_snoc items (it : item) :
  reduce_total (items ++ [it])
  = (reduce_total items + Item.price it * Item.quantity it)%num.
Proof. unfold reduce_total. by rewrite fold_left_app. Qed.

(** The provider's [reduce] computes the sum of the lines. *)
Lemma reduce_total_sums items : sums_to items (reduce_total items).
Proof.
  induction items as [|it items IH] using rev_ind; [constructor|].
  rewrite reduce_total_snoc. by constructor.
Qed.

(** A cart has one sum. *)
Lemma sums_to_unique items (t1 t2 : num) :
  sums_to items t1 → sums_to items t2 → t1 = t2.
Proof.
  intros Hsum1. revert t2.
  induction Hsum1 as [|items it total _ IH]; intros t2 Hsum2.
  - inversion Hsum2 as [|items' it' total' _ Hitems]; [done|].
    by destruct items'.
  - inversion Hsum2 as [Hnil|items' it' total' Hsum' Hitems].
    + by destruct items.
    + apply app_inj_tail in Hitems as [-> ->]. by rewrite (IH total').
Qed.

Lemma settle_sums b s :
  existsb is_setCartItems b = true →
  sums_to (cartItems (settle b s)) (totalPrice (settle b s)).
Proof.
  intros Hset. rewrite (settle_totalled b s Hset). apply reduce_total_sums.
Qed.

(** ** Mutations *)

(** C3. After every mutation of the cart ([addToCart], [removeFromCart],
    [updateQuantity], [clearCart]) the total price is the sum, over the lines
    of the resulting cart, of price times quantity: both while the server call
    is in flight and once it is answered, whatever the answer.  The sum is
    [sums_to], which does not go through the provider's [reduce]. *)
Theorem total_recomputed_by_every_mutation token api (m : mutation) s :
  let s1 := optimistic (handle token api m (cartItems s)) s in
  let s2 := perform token api m s in
  sums_to (cartItems s1) (totalPrice s1)
  ∧ sums_to (cartItems s2) (totalPrice s2).
Proof.
  split.
  - apply settle_sums, handle_sets_cart.
  - apply (complete_settled api _ s
             (λ s0, sums_to (cartItems s0) (totalPrice s0))).
    + apply handle_sets_cart.
    + intros p. apply reject_sets_cart.
    + intros b s0. apply settle_sums.
Qed.

(** C6. [removeFromCart] is optimistic: before any answer of the server the
    cart is the previous list without the lines whose id is [productId], the
    other lines as they were and in the same order, and the total is the sum
    of price times quantity over that list ([sums_to], which does not go
    through the provider's [reduce]). *)
Theorem removeFromCart_optimistic token productId s :
  let s' := optimistic (removeFromCart token productId (cartItems s)) s in
  cartItems s' = filter (λ it, Item.id it ≠ productId) (cartItems s)
  ∧ (∀ it, it ∈ cartItems s' ↔ it ∈ cartItems s ∧ Item.id it ≠ productId)
  ∧ sublist (cartItems s') (cartItems s)
  ∧ sums_to (filter (λ it, Item.id it ≠ productId) (cartItems s))
      (totalPrice s').
Proof.
  pose proof (removeFromCart_cart token productId s) as Hcart.
  cbv zeta. rewrite !Hcart. split_and!.
  - done.
  - intros it. rewrite list_elem_of_filter. tauto.
  - apply sublist_filter.
  - rewrite <- Hcart. apply settle_sums, removeFromCart_sets.
Qed.

(** ** Rollback *)

(** Evaluate the commits of batches that set the cart. *)
Ltac run_settle :=
  repeat (rewrite settle_set by done); unfold commit; simpl.

(** The state after an optimistic update has been saved and then undone. *)
Lemma rolled_back_intro s text :
  rolled_back s
    (mkState (cartItems s) (reduce_total (cartItems s))
       (<["cartItems" := JSON_stringify (cartItems s)]>
          (<["cartItems" := text]> (localStorage s)))).
Proof.
  unfold rolled_back, totalled, persisted. simpl. split_and!; try done.
  intros Htotal Hsaved. destruct s as [items total storage]. simpl in *.
  f_equal; [done|]. rewrite insert_insert_eq. by apply insert_id.
Qed.


(** Whenever the rejection arrives, whatever state the provider is in by
    then, the [.catch] puts back the list the handler was called with. *)
Lemma rollback_whenever token api m s p later :
  call (handle token api m (cartItems s)) = Some p →
  cartItems (settle (on_reject p) later) = cartItems s
  ∧ totalPrice (settle (on_reject p) later) = reduce_total (cartItems s).
Proof.
  destruct m; simpl;
    unfold addToCart, updateQuantity, clearCart, removeFromCart;
    repeat case_match; simpl; intros [= <-]; by run_settle.
Qed.


(** ** Persistence *)

Lemma settle_nil s : settle [] s = s.
Proof. done. Qed.

Lemma mount_load_persisted storage s :
  mount_load storage = Some s → persisted s.
Proof.
  unfold mount_load, load_savedCart.
  destruct (truthy (storage !! "cartItems")); simpl.
  - destruct (storage !! "cartItems" ≫= JSON_parse) as [parsed|]; [|done].
    simpl. intros [= <-]. by apply settle_persisted.
  - intros [= <-]. rewrite settle_unset by done.
    unfold persisted, commit. simpl. apply lookup_insert_eq.
Qed.

(** [syncFromServer] sets the cart or does nothing. *)
Lemma syncFromServer_cases token api storage :
  syncFromServer token api storage = []
  ∨ existsb is_setCartItems (syncFromServer token api storage) = true.
Proof. unfold syncFromServer. repeat case_match; auto. Qed.

Lemma mount_persisted token api storage s :
  mount token api storage = Some s → persisted s.
Proof.
  unfold mount. destruct (mount_load storage) as [s1|] eqn:Hload; [|done].
  simpl. intros [= <-].
  destruct (syncFromServer_cases token api (localStorage s1)) as [-> | Hset].
  - rewrite settle_nil. by apply mount_load_persisted with storage.
  - by apply settle_persisted.
Qed.

(** C5. After every change of [cartItems] the storage key [cartItems] holds
    the JSON text of the current cart: this holds after every commit that
    changes the list, and so in every state the provider goes through, from
    mount on. *)
Theorem cart_saved_after_every_change :
  (∀ b s,
     cartItems (settle b s) ≠ cartItems s →
     localStorage (settle b s) !! "cartItems"
     = Some (JSON_stringify (cartItems (settle b s))))
  ∧ (∀ s,
       reachable s →
       localStorage s !! "cartItems" = Some (JSON_stringify (cartItems s))).
Proof.
  split.
  - intros b s Hchanged.
    destruct (existsb is_setCartItems b) eqn:Hset.
    + by apply settle_persisted.
    + rewrite settle_unset in Hchanged by done.
      by rewrite commit_unset_cart in Hchanged.
  - intros s Hreach. change (persisted s).
    induction Hreach as [storage s Hload | token api storage s Hmount
                        | token api m s _ IH | token api m s _ IH
                        | token api s _ IH].
    + by apply mount_load_persisted with storage.
    + by apply mount_persisted with token api storage.
    + apply settle_persisted, handle_sets_cart.
    + apply (complete_settled api _ s persisted).
      * apply handle_sets_cart.
      * intros p. apply reject_sets_cart.
      * intros b s0. apply settle_persisted.
    + unfold checkout. destruct (Nat.eqb (length (cartItems s)) 0); simpl.
      * done.
      * apply (complete_settled api _ s persisted).
        -- apply (handle_sets_cart token api ClearCart).
        -- intros p. apply (reject_sets_cart token api ClearCart).
        -- intros b s0. apply settle_persisted.
Qed.

(** ** Checkout *)

(** C8. [checkout] rejects with the error [Cart is empty] exactly when the
    cart is the empty list; for a cart that is not empty it resolves with
    [{ success: true, message: 'Checkout successful!' }] and clears the cart:
    when it resolves the cart is empty and the total is zero, and they stay
    so unless the server call of [clearCart] fails. *)
Theorem checkout_rejects_empty_cart token items :
  ((checkout token items).1 = RejectedWith (mkError "Cart is empty" None)
   ↔ items = [])
  ∧ (items ≠ [] →
     (checkout token items).1
     = Fulfilled (mkReceipt true "Checkout successful!")
     ∧ (∀ s, cartItems (optimistic (checkout token items).2 s) = []
             ∧ totalPrice (optimistic (checkout token items).2 s) = num_zero)
     ∧ (∀ api s,
          truthy token = false ∨ api DELETE_cart ≠ Rejected →
          cartItems (complete api (checkout token items).2 s) = []
          ∧ totalPrice (complete api (checkout token items).2 s) = num_zero)).
Proof.
  unfold checkout. destruct items as [|it items]; simpl.
  - split; [done|]. by intros [].
  - split; [split; discriminate|]. intros _. split; [done|].
    assert (Hnow : ∀ s,
      cartItems (optimistic (clearCart token (it :: items)) s) = []
      ∧ totalPrice (optimistic (clearCart token (it :: items)) s) = num_zero).
    { intros s. unfold optimistic, clearCart.
      destruct (truthy token); simpl; by run_settle. }
    split; [done|]. intros api s Hserver. unfold complete.
    destruct (call (clearCart token (it :: items))) as [p|] eqn:Hcall; [|done].
    unfold clearCart in Hcall. destruct (truthy token) eqn:Htoken; [|done].
    simpl in Hcall. injection Hcall as <-. simpl.
    destruct Hserver as [|Hserver]; [done|].
    by destruct (api DELETE_cart).
Qed.

(** ** Quantities that are not positive *)

(** C9. [updateQuantity] with a quantity [q <= 0] is [removeFromCart]: the
    same commands, the same call, the same state.  And a guest's [addToCart]
    of a product that is in the cart, with a quantity that brings the line to
    zero or below, removes the product from the cart: it ends in the state
    [removeFromCart] ends in, where no line has the product's id. *)
Theorem nonpositive_quantity_removes token api :
  (∀ productId q,
     (q <= num_zero)%num = true →
     (∀ items,
        updateQuantity token productId q items
        = removeFromCart token productId items)
     ∧ (∀ s, perform token api (UpdateQuantity productId q) s
             = perform token api (RemoveFromCart productId) s))
  ∧ (∀ product quantity s existing,
       truthy token = false →
       find (λ it, strict_eq (Item.id it) (Product.id product)) (cartItems s)
       = Some existing →
       (Item.quantity existing + default num_one quantity <= num_zero)%num
       = true →
       let s' := perform token api (AddToCart product quantity) s in
       s' = perform token api (RemoveFromCart (Product.id product)) s
       ∧ cartItems s'
         = filter (λ it, Item.id it ≠ Product.id product) (cartItems s)
       ∧ (∀ it, it ∈ cartItems s' → Item.id it ≠ Product.id product)).
Proof.
  split.
  - intros productId q Hq.
    assert (Hsame : ∀ items,
      updateQuantity token productId q items
      = removeFromCart token productId items).
    { intros items. unfold updateQuantity. by rewrite Hq. }
    split; [done|]. intros s. unfold perform. simpl. by rewrite Hsame.
  - intros product quantity s existing Htoken Hfind Hle.
    assert (Hstate :
      perform token api (AddToCart product quantity) s
      = perform token api (RemoveFromCart (Product.id product)) s).
    { unfold perform, complete, optimistic. simpl. unfold addToCart.
      rewrite Htoken, Hfind, Hle. unfold removeFromCart. rewrite Htoken.
      simpl. by run_settle. }
    cbv zeta. rewrite Hstate.
    pose proof (removeFromCart_cart token (Product.id product) s) as Hcart.
    assert (Hperform :
      perform token api (RemoveFromCart (Product.id product)) s
      = optimistic (removeFromCart token (Product.id product) (cartItems s)) s).
    { unfold perform, complete. simpl. unfold removeFromCart at 2.
      by rewrite Htoken. }
    rewrite Hperform, Hcart. split_and!; [done|done|].
    intros it Hit. by apply list_elem_of_filter in Hit as [Hne _].
Qed.

(** ** Mount *)

(** What [syncFromServer] does when the storage holds the saved text of the
    cart [local]. *)
Lemma syncFromServer_saved token api (storage : gmap string string) local :
  storage !! "cartItems" = Some (JSON_stringify local) →
  round_trips local →
  syncFromServer token api storage
  = match server_cart token api, local with
    | Some serverItems, [] => [setCartItems (λ _, serverItems)]
    | _, _ => []
    end.
Proof.
  intros Hsaved [Htext Hparse]. unfold syncFromServer, server_cart.
  destruct (truthy token); [|done].
  destruct (api GET_cart) as [[serverItems|]|]; try done.
  rewrite Hsaved. simpl. rewrite bool_decide_eq_true_2 by done. simpl.
  rewrite Hparse. by destruct local.
Qed.

(** The state after the saved cart [local] was loaded and rendered. *)
Lemma mount_load_saved (storage : gmap string string) savedCart local :
  storage !! "cartItems" = Some savedCart →
  savedCart ≠ "" →
  JSON_parse savedCart = Some local →
  mount_load storage
  = Some (mkState local (reduce_total local)
            (<["cartItems" := JSON_stringify local]>
               (<["cartItems" := JSON_stringify []]> storage))).
Proof.
  intros Hsaved Htext Hparse. unfold mount_load, load_savedCart.
  rewrite Hsaved. simpl. rewrite bool_decide_eq_true_2 by done.
  rewrite Hparse. simpl. by run_settle.
Qed.

Lemma mount_load_absent (storage : gmap string string) :
  truthy (storage !! "cartItems") = false →
  mount_load storage
  = Some (mkState [] num_zero (<["cartItems" := JSON_stringify []]> storage)).
Proof.
  intros Habsent. unfold mount_load, load_savedCart. by rewrite Habsent.
Qed.

(** The cart after the server's answer, from a state that holds [local]
    and has saved it. *)
Lemma sync_after_load token api local total (storage : gmap string string) :
  round_trips local →
  cartItems
    (settle
       (syncFromServer token api
          (<["cartItems" := JSON_stringify local]> storage))
       (mkState local total (<["cartItems" := JSON_stringify local]> storage)))
  = match local with
    | [] => default [] (server_cart token api)
    | _ :: _ => local
    end.
Proof.
  intros Hround.
  rewrite (syncFromServer_saved token api _ local)
    by (done || apply lookup_insert_eq).
  destruct (server_cart token api) as [serverItems|]; destruct local; done.
Qed.

(** C2. On mount the provider first loads the cart saved in the storage, if
    there is one; then the mapped server cart, which exists when there is a
    session token and the server returns a cart, replaces [cartItems] only
    when the saved cart is absent or is the empty list: a saved cart that is
    not empty is kept and the server cart is not applied.  (The browser is
    assumed to read back the carts it writes.) *)
Theorem mount_keeps_nonempty_saved_cart token api
    (storage : gmap string string) :
  round_trips [] →
  (truthy (storage !! "cartItems") = false →
   ∃ s1 s2,
     mount_load storage = Some s1 ∧ cartItems s1 = []
     ∧ mount token api storage = Some s2
     ∧ cartItems s2 = default [] (server_cart token api))
  ∧ (∀ savedCart local,
       storage !! "cartItems" = Some savedCart →
       savedCart ≠ "" →
       JSON_parse savedCart = Some local →
       round_trips local →
       ∃ s1 s2,
         mount_load storage = Some s1 ∧ cartItems s1 = local
         ∧ mount token api storage = Some s2
         ∧ cartItems s2 = match local with
                          | [] => default [] (server_cart token api)
                          | _ :: _ => local
                          end).
Proof.
  intros Hempty. split.
  - intros Habsent. unfold mount. rewrite (mount_load_absent _ Habsent).
    eexists _, _. split_and!; [done|done|done|]. simpl.
    by rewrite (sync_after_load token api []).
  - intros savedCart local Hsaved Htext Hparse Hround. unfold mount.
    rewrite (mount_load_saved _ _ _ Hsaved Htext Hparse).
    eexists _, _. split_and!; [done|done|done|]. simpl.
    by rewrite (sync_after_load token api local).
Qed.

End CartProperties.

(** ** The sum for integer amounts *)

Lemma Z_total_snoc (items : list (Item.t Z)) (it : Item.t Z) :
  Z_total (items ++ [it])
  = (Z_total items + Item.price it * Item.quantity it)%Z.
Proof.
  unfold Z_total. induction items as [|it0 items IH]; simpl; [lia|].
  rewrite IH. lia.
Qed.

(** For integer amounts [sums_to] is the sum in the usual sense, in whatever
    order the amounts are added. *)
Lemma sums_to_Z_total (items : list (Item.t Z)) (total : Z) :
  sums_to items total ↔ total = Z_total items.
Proof.
  split.
  - induction 1 as [|items it total _ ->]; [done|].
    by rewrite Z_total_snoc.
  - intros ->. induction items as [|it items IH] using rev_ind; [constructor|].
    rewrite Z_total_snoc. exact (sums_snoc items it (Z_total items) IH).
Qed.

(** * Properties of the change-password form *)

Section ChangePasswordProperties.
Import ChangePassword.

Implicit Types (s : form) (formData : gmap string jsstring) (text : jsstring).

(** ** The rule on the new password *)

Lemma in_range_printable lo hi :
  (13 < lo)%N → (hi < 8232)%N → printable (in_range lo hi).
Proof.
  intros Hlo Hhi c. unfold in_range, line_terminator.
  rewrite andb_true_iff, !N.leb_le, !orb_false_iff, !N.eqb_neq. lia.
Qed.

Lemma lower_printable : printable lower.
Proof. by apply in_range_printable. Qed.

Lemma upper_printable : printable upper.
Proof. by apply in_range_printable. Qed.

Lemma digit_printable : printable digit.
Proof. by apply in_range_printable. Qed.

(** [.*] followed by a class of the rule finds the class on the first line,
    and nowhere else. *)
Lemma dot_star_class p text :
  printable p →
  re_match (Seq DotStar (Class p)) text (λ _, true)
  = existsb p (first_line text).
Proof.
  intros Hp. induction text as [|c text IH]; [done|].
  simpl in *. rewrite IH, andb_true_r.
  destruct (line_terminator c) eqn:Hc; simpl; [|done].
  destruct (p c) eqn:Hpc; [|done]. apply Hp in Hpc. congruence.
Qed.

(** At one position, the three lookaheads look at the rest of the line. *)
Lemma password_rule_here text :
  re_match password_rule text (λ _, true) = has_all_three (first_line text).
Proof.
  unfold password_rule, has_all_three.
  change (re_match (Seq DotStar (Class lower)) text (λ _, true)
          && (re_match (Seq DotStar (Class upper)) text (λ _, true)
              && (re_match (Seq DotStar (Class digit)) text (λ _, true) && true))
          = existsb lower (first_line text) && existsb upper (first_line text)
            && existsb digit (first_line text)).
  rewrite (dot_star_class lower) by apply lower_printable.
  rewrite (dot_star_class upper) by apply upper_printable.
  rewrite (dot_star_class digit) by apply digit_printable.
  by rewrite andb_true_r, andb_assoc.
Qed.

Lemma lines_first_line text :
  ∃ more, lines text = first_line text :: more.
Proof.
  induction text as [|c text [more IH]]; [by exists []|].
  simpl. destruct (line_terminator c); [by eexists|].
  rewrite IH. by eexists.
Qed.

Lemma has_all_three_cons c text :
  has_all_three text = true → has_all_three (c :: text) = true.
Proof.
  unfold has_all_three. simpl.
  destruct (lower c), (upper c), (digit c), (existsb lower text),
    (existsb upper text), (existsb digit text); done.
Qed.

(** What the rule tests: some line of the text has a lower case letter, an
    upper case letter and a digit. *)
Lemma password_rule_lines text :
  re_test password_rule text = existsb has_all_three (lines text).
Proof.
  induction text as [|c text IH]; [done|].
  change (re_test password_rule (c :: text))
    with (re_match password_rule (c :: text) (λ _, true)
          || re_test password_rule text).
  rewrite IH, password_rule_here. simpl.
  destruct (lines_first_line text) as [more ->].
  destruct (line_terminator c); [done|]. simpl.
  destruct (has_all_three (first_line text)) eqn:Hrest;
    [|by rewrite orb_false_l].
  by rewrite (has_all_three_cons c _ Hrest).
Qed.

Lemma lines_one_line text : one_line text → lines text = [text].
Proof.
  induction 1 as [|c text Hc _ IH]; [done|]. simpl. by rewrite Hc, IH.
Qed.

(** On a text without line terminators the rule asks for the three kinds of
    characters anywhere in the text. *)
Lemma password_rule_one_line text :
  one_line text →
  re_test password_rule text
  = existsb lower text && existsb upper text && existsb digit text.
Proof.
  intros Hline. rewrite password_rule_lines, lines_one_line by done.
  simpl. apply orb_false_r.
Qed.

(** ** Validation *)

(** [validateForm] returns the conjunction of its tests. *)
Lemma validateForm_tests formData :
  (validateForm formData).2
  = truthy_value (formData !! "currentPassword")
    && (truthy_value (formData !! "newPassword")
        && negb (length (default [] (formData !! "newPassword")) <? 8)%nat
        && re_test password_rule (default [] (formData !! "newPassword")))
    && (truthy_value (formData !! "confirmPassword")
        && bool_decide (formData !! "newPassword"
                        = formData !! "confirmPassword")).
Proof.
  unfold validateForm.
  destruct (truthy_value (formData !! "currentPassword")),
    (truthy_value (formData !! "newPassword")),
    (length (default [] (formData !! "newPassword")) <? 8)%nat,
    (re_test password_rule (default [] (formData !! "newPassword"))),
    (truthy_value (formData !! "confirmPassword")),
    (bool_decide (formData !! "newPassword" = formData !! "confirmPassword"));
    vm_compute; reflexivity.
Qed.

(** It returns [true] exactly when it records no error. *)
Lemma validateForm_no_errors formData :
  (validateForm formData).2 = true ↔ (validateForm formData).1 = ∅.
Proof.
  unfold validateForm. simpl. rewrite bool_decide_eq_true.
  apply map_size_empty_iff.
Qed.

Lemma existsb_Exists (p : N → bool) text :
  existsb p text = true ↔ Exists (λ c, p c = true) text.
Proof.
  rewrite Exists_exists, existsb_exists. setoid_rewrite list_elem_of_In.
  naive_solver.
Qed.

Lemma existsb_Exists_lines (test : list N → bool) (texts : list (list N)) :
  existsb test texts = true ↔ Exists (λ line, test line = true) texts.
Proof.
  rewrite Exists_exists, existsb_exists. setoid_rewrite list_elem_of_In.
  naive_solver.
Qed.

(** [validateForm] in terms of the fields and of the rule. *)
Lemma validateForm_rule formData :
  (validateForm formData).2 = true
  ↔ ∃ current new confirm,
      formData !! "currentPassword" = Some current ∧ current ≠ []
      ∧ formData !! "newPassword" = Some new ∧ new ≠ []
      ∧ (8 ≤ length new)%nat
      ∧ re_test password_rule new = true
      ∧ formData !! "confirmPassword" = Some confirm ∧ confirm ≠ []
      ∧ confirm = new.
Proof.
  rewrite validateForm_tests.
  rewrite !andb_true_iff, negb_true_iff, Nat.ltb_ge, bool_decide_eq_true.
  unfold truthy_value. split.
  - intros ((Hcurrent & (Hnew & Hlen) & Hrule) & Hconfirm & Hsame).
    destruct (formData !! "currentPassword") as [[|c1 current]|]; try done.
    destruct (formData !! "newPassword") as [[|c2 new]|]; try done.
    destruct (formData !! "confirmPassword") as [[|c3 confirm]|]; try done.
    injection Hsame as -> ->.
    exists (c1 :: current), (c3 :: confirm), (c3 :: confirm).
    split_and!; done.
  - intros (current & new & confirm & -> & Hcurrent & -> & Hnew & Hlen
            & Hrule & -> & Hconfirm & ->).
    destruct current; [done|]. destruct new; [done|].
    split_and!; done.
Qed.

(** What [validateForm] accepts, exactly. *)
Lemma validateForm_applied formData :
  (validateForm formData).2 = true ↔ applied_rules formData.
Proof.
  rewrite validateForm_rule. unfold applied_rules.
  split; intros (current & new & confirm & H1 & H2 & H3 & H4 & H5 & H6 & H7);
    exists current, new, confirm;
    (split_and!; [done|done|done|done|done| |apply H7|apply H7|apply H7]).
  - apply existsb_Exists_lines. by rewrite <- password_rule_lines.
  - rewrite password_rule_lines. by apply existsb_Exists_lines.
Qed.

(** On a new password without line terminators [validateForm] follows the
    rules as they are worded. *)
Lemma validateForm_one_line formData :
  one_line (default [] (formData !! "newPassword")) →
  (validateForm formData).2 = true ↔ stated_rules formData.
Proof.
  intros Hline. rewrite validateForm_rule. unfold stated_rules.
  split.
  - intros (current & new & confirm & H1 & H2 & H3 & H4 & H5 & Hrule & H7).
    rewrite H3 in Hline. simpl in Hline.
    rewrite password_rule_one_line in Hrule by done.
    apply andb_true_iff in Hrule as [Hrule Hdigit].
    apply andb_true_iff in Hrule as [Hlower Hupper].
    exists current, new, confirm.
    split_and!; try done; try apply H7; by apply existsb_Exists.
  - intros (current & new & confirm & H1 & H2 & H3 & H4 & H5 & Hlower & Hupper
            & Hdigit & H7).
    rewrite H3 in Hline. simpl in Hline.
    exists current, new, confirm. split_and!; try done; try apply H7.
    rewrite password_rule_one_line by done.
    apply existsb_Exists in Hlower, Hupper, Hdigit.
    by rewrite Hlower, Hupper, Hdigit.
Qed.

(** C4, which the code does not meet.  [validateForm] is to succeed exactly
    when the current password is not empty, the new password has at least 8
    characters with a lower case letter, an upper case letter and a digit,
    and the confirmation equals it.  The form [separated_form] meets all of
    that, and [validateForm] rejects it with the message that the password
    must contain the three kinds of characters: its new password has a line
    separator between the lower case letters and the rest, and the [.*] of
    the rule does not go past a line terminator ([validateForm_applied]).
    Without line terminators the two agree ([validateForm_one_line]). *)
Theorem validateForm_rejects_separated_password :
  stated_rules separated_form
  ∧ validateForm separated_form
    = ({["newPassword" :=
           "Password must contain at least one uppercase letter, one lowercase letter, and one number"]},
       false).
Proof.
  split; [|by vm_compute].
  exists (js "old-secret"), separated_password, separated_password.
  split_and!; try done.
  - vm_compute. lia.
  - by apply existsb_Exists.
  - by apply existsb_Exists.
  - by apply existsb_Exists.
Qed.

(** ** Submission *)

(** C7. The submission calls no backend: the outcome of [handleSubmit] is a
    function of the form alone.  It never sets the error message, and for a
    form that passes [validateForm] it takes the success branch: the success
    message is [Password changed successfully!] and the three fields are
    empty strings again. *)
Theorem handleSubmit_always_succeeds :
  (∀ s, error (handleSubmit s) = "")
  ∧ (∀ s,
       (validateForm (formData s)).2 = true →
       success (handleSubmit s) = "Password changed successfully!"
       ∧ formData (handleSubmit s) !! "currentPassword" = Some []
       ∧ formData (handleSubmit s) !! "newPassword" = Some []
       ∧ formData (handleSubmit s) !! "confirmPassword" = Some []
       ∧ formData (handleSubmit s) = blank
       ∧ loading (handleSubmit s) = false).
Proof.
  split.
  - intros s. unfold handleSubmit.
    destruct (validateForm _) as [newErrors valid]. by destruct valid.
  - intros s. unfold handleSubmit.
    change (formData (setSuccess "" (setError "" s))) with (formData s).
    destruct (validateForm (formData s)) as [newErrors valid].
    simpl. intros ->. simpl. split_and!; done.
Qed.

(** ** Typing in a field *)

(** C10. [handleChange] on the field [name] sets [formData[name]] to the new
    value and, when an error is recorded for [name], sets [errors[name]] to
    the empty string; for every other field [m] it leaves [formData[m]] and
    [errors[m]] as they were, and it touches nothing else of the form. *)
Theorem handleChange_touches_one_field name value s :
  formData (handleChange name value s) !! name = Some value
  ∧ errors (handleChange name value s) !! name
    = (if truthy (errors s !! name) then Some "" else errors s !! name)
  ∧ (∀ m, m ≠ name →
       formData (handleChange name value s) !! m = formData s !! m
       ∧ errors (handleChange name value s) !! m = errors s !! m)
  ∧ loading (handleChange name value s) = loading s
  ∧ success (handleChange name value s) = success s
  ∧ error (handleChange name value s) = error s.
Proof.
  unfold handleChange.
  destruct (truthy (errors s !! name)) eqn:Hrecorded; simpl;
    split_and!; try done; try apply lookup_insert_eq.
  - intros m Hm. by rewrite !lookup_insert_ne.
  - intros m Hm. by rewrite lookup_insert_ne.
Qed.

End ChangePasswordProperties.

(** * The statements at work *)

Section Witnesses.
Import Examples.

(** The handler of [addToCart] computes the total from the list it was
    rendered with: right after its commit the cart has three pens and the
    total is still the old one; the effect then sets it right. *)
Example addToCart_total_before_effect :
  let e := handle guest serving (AddToCart pen_product None) (cartItems shop) in
  totalPrice (commit (batch e) shop) = 45%Z
  ∧ reduce_total (cartItems (commit (batch e) shop)) = 55%Z
  ∧ totalPrice (optimistic e shop) = 55%Z.
Proof. by vm_compute. Qed.


Lemma mount_keeps_nonempty_saved_cart_witness :
  round_trips ([] : list (Item.t Z))
  ∧ saved_storage !! "cartItems" = Some (JSON_stringify cart)
  ∧ JSON_stringify cart ≠ ""
  ∧ JSON_parse (JSON_stringify cart) = Some cart
  ∧ round_trips cart
  ∧ truthy ((∅ : gmap string string) !! "cartItems") = false
  ∧ (∃ s1 s2,
       mount_load saved_storage = Some s1 ∧ cartItems s1 = cart
       ∧ mount session serving saved_storage = Some s2
       ∧ cartItems s2 = cart)
  ∧ (∃ s1 s2,
       mount_load (∅ : gmap string string) = Some s1 ∧ cartItems s1 = []
       ∧ mount session serving ∅ = Some s2
       ∧ cartItems s2 = [serverItem cup]).
Proof.
  assert (Hempty : round_trips ([] : list (Item.t Z))).
  { split; [vm_compute; discriminate | vm_compute; reflexivity]. }
  assert (Hcart : round_trips cart).
  { split; [vm_compute; discriminate | vm_compute; reflexivity]. }
  split; [exact Hempty|].
  split; [vm_compute; reflexivity|].
  split; [vm_compute; discriminate|].
  split; [vm_compute; reflexivity|].
  split; [exact Hcart|].
  split; [reflexivity|].
  split.
  - destruct (mount_keeps_nonempty_saved_cart session serving saved_storage
                Hempty) as [_ Hsaved].
    apply (Hsaved (JSON_stringify cart) cart).
    + vm_compute; reflexivity.
    + vm_compute; discriminate.
    + vm_compute; reflexivity.
    + exact Hcart.
  - destruct (mount_keeps_nonempty_saved_cart session serving ∅ Hempty)
      as [Habsent _].
    apply Habsent. reflexivity.
Defined.

Lemma cart_saved_after_every_change_witness :
  cartItems (settle (batch (clearCart guest cart)) shop) ≠ cartItems shop
  ∧ localStorage (settle (batch (clearCart guest cart)) shop) !! "cartItems"
    = Some (JSON_stringify ([] : list (Item.t Z)))
  ∧ mount session serving saved_storage = Some mounted
  ∧ localStorage (perform session failing (RemoveFromCart (Some "p2")) mounted)
      !! "cartItems"
    = Some (JSON_stringify cart).
Proof.
  destruct (@cart_saved_after_every_change Z _ _) as [Hchange Hreach].
  assert (Hmount : mount session serving saved_storage = Some mounted)
    by (vm_compute; reflexivity).
  split; [vm_compute; discriminate|].
  split; [|split; [exact Hmount|]].
  - apply (Hchange (batch (clearCart guest cart)) shop).
    vm_compute; discriminate.
  - apply (Hreach (perform session failing (RemoveFromCart (Some "p2")) mounted)).
    apply reach_perform. exact (reach_mount _ _ _ _ Hmount).
Defined.

Lemma checkout_rejects_empty_cart_witness :
  cart ≠ []
  ∧ (checkout session cart).1
    = Fulfilled (mkReceipt true "Checkout successful!")
  ∧ cartItems (optimistic (checkout session cart).2 shop) = []
  ∧ totalPrice (optimistic (checkout session cart).2 shop) = 0%Z
  ∧ (checkout session ([] : list (Item.t Z))).1
    = RejectedWith (mkError "Cart is empty" None).
Proof.
  destruct (checkout_rejects_empty_cart session cart) as [_ Hfull].
  destruct (checkout_rejects_empty_cart session ([] : list (Item.t Z)))
    as [[_ Hempty] _].
  assert (Hcart : cart ≠ []) by discriminate.
  destruct (Hfull Hcart) as (Hresolve & Hclear & _).
  split; [exact Hcart|]. split; [exact Hresolve|].
  split; [apply (Hclear shop)|]. split; [apply (Hclear shop)|].
  apply Hempty. reflexivity.
Defined.

Lemma nonpositive_quantity_removes_witness :
  num_le (-1)%Z num_zero = true
  ∧ updateQuantity session (Some "p1") (-1)%Z cart
    = removeFromCart session (Some "p1") cart
  ∧ truthy guest = false
  ∧ find (λ it, strict_eq (Item.id it) (Product.id pen_product)) (cartItems shop)
    = Some pen
  ∧ num_le (num_add (Item.quantity pen) (default num_one (Some (-2)%Z)))
      num_zero = true
  ∧ cartItems (perform guest serving (AddToCart pen_product (Some (-2)%Z)) shop)
    = [ink].
Proof.
  destruct (@nonpositive_quantity_removes Z _ _ session serving)
    as [Hupdate _].
  destruct (@nonpositive_quantity_removes Z _ _ guest serving)
    as [_ Hadd].
  split; [reflexivity|].
  split; [apply (Hupdate (Some "p1") (-1)%Z); reflexivity|].
  split; [reflexivity|]. split; [reflexivity|]. split; [reflexivity|].
  destruct (Hadd pen_product (Some (-2)%Z) shop pen eq_refl eq_refl eq_refl)
    as (_ & Hcart & _).
  rewrite Hcart. reflexivity.
Defined.

Lemma handleSubmit_always_succeeds_witness :
  (ChangePassword.validateForm (ChangePassword.formData filled)).2 = true
  ∧ ChangePassword.success (ChangePassword.handleSubmit filled)
    = "Password changed successfully!"
  ∧ ChangePassword.formData (ChangePassword.handleSubmit filled)
    = ChangePassword.blank
  ∧ ChangePassword.error (ChangePassword.handleSubmit filled) = "".
Proof.
  destruct handleSubmit_always_succeeds as [Herror Hvalid].
  assert (Hfilled :
    (ChangePassword.validateForm (ChangePassword.formData filled)).2 = true)
    by (vm_compute; reflexivity).
  destruct (Hvalid filled Hfilled) as (Hsuccess & _ & _ & _ & Hblank & _).
  split; [exact Hfilled|]. split; [exact Hsuccess|].
  split; [exact Hblank|]. apply Herror.
Defined.

Lemma handleChange_touches_one_field_witness :
  "confirmPassword" ≠ "newPassword"
  ∧ ChangePassword.formData
      (ChangePassword.handleChange "newPassword" (ChangePassword.js "X") filled)
      !! "confirmPassword"
    = Some (ChangePassword.js "Abcdefg1")
  ∧ ChangePassword.errors
      (ChangePassword.handleChange "newPassword" (ChangePassword.js "X") filled)
      !! "newPassword"
    = Some "".
Proof.
  destruct (handleChange_touches_one_field "newPassword"
              (ChangePassword.js "X") filled)
    as (_ & Hcleared & Hother & _).
  assert (Hne : "confirmPassword" ≠ "newPassword") by discriminate.
  destruct (Hother "confirmPassword" Hne) as [Hdata _].
  split; [exact Hne|]. split.
  - rewrite Hdata. vm_compute; reflexivity.
  - rewrite Hcleared. vm_compute; reflexivity.
Defined.

End Witnesses.

(** * Further properties of the cart provider *)

Section CartFurther.
Context {num : Type} `{Number num} `{Json num}.

Local Abbreviation item := (Item.t num).
Local Abbreviation state := (@state num).
Local Abbreviation cmd := (@cmd num).

Implicit Types (s : state) (b : list cmd) (items : list item).
Implicit Types (token productId : option string) (api : request num → reply num).

Ltac run_settle :=
  repeat (rewrite settle_set by done); unfold commit; simpl.

(** ** The other keys of the storage *)

Lemma execute_other_key c s (k : string) :
  own_key c = true → k ≠ "cartItems" →
  localStorage (execute s c) !! k = localStorage s !! k.
Proof.
  intros Hown Hk. destruct c as [update|value|key value|key]; simpl in *;
    try done; apply bool_decide_eq_true in Hown as ->.
  - by rewrite lookup_insert_ne.
  - by rewrite lookup_delete_ne.
Qed.

Lemma commit_other_key b s (k : string) :
  forallb own_key b = true → k ≠ "cartItems" →
  localStorage (commit b s) !! k = localStorage s !! k.
Proof.
  revert s. induction b as [|c b IH]; intros s Hown Hk; [done|].
  simpl in Hown. apply andb_true_iff in Hown as [Hc Hb].
  change (commit (c :: b) s) with (commit b (execute s c)).
  rewrite IH by done. by apply execute_other_key.
Qed.

Lemma settle_other_key b s (k : string) :
  forallb own_key b = true → k ≠ "cartItems" →
  localStorage (settle b s) !! k = localStorage s !! k.
Proof.
  intros Hown Hk. unfold settle.
  destruct (existsb is_setCartItems b).
  - rewrite commit_effect. simpl. rewrite lookup_insert_ne by done.
    by apply commit_other_key.
  - by apply commit_other_key.
Qed.

Lemma complete_other_key api (e : effects) s (k : string) :
  forallb own_key (batch e) = true →
  (∀ p, call e = Some p → forallb own_key (on_reject p) = true) →
  k ≠ "cartItems" →
  localStorage (complete api e s) !! k = localStorage s !! k.
Proof.
  intros Hbatch Hreject Hk. unfold complete, optimistic.
  destruct (call e) as [p|] eqn:Hcall; [|by apply settle_other_key].
  destruct (api (sent p)); [by apply settle_other_key|].
  rewrite settle_other_key by auto. by apply settle_other_key.
Qed.

Lemma handle_own_key token api m items :
  forallb own_key (batch (handle token api m items)) = true
  ∧ (∀ p, call (handle token api m items) = Some p →
          forallb own_key (on_reject p) = true).
Proof.
  destruct m; simpl;
    unfold addToCart, updateQuantity, clearCart, removeFromCart;
    repeat case_match; simpl; split; try done; intros p [= <-]; done.
Qed.

Lemma syncFromServer_own_key token api storage :
  forallb own_key (syncFromServer token api storage) = true.
Proof. unfold syncFromServer. repeat case_match; done. Qed.

(** X1. The provider keeps to its own key: a mutation, a checkout and the
    mount leave every key of the storage other than [cartItems] as it was
    (the session token, for one). *)
Theorem other_storage_keys_untouched (k : string) :
  k ≠ "cartItems" →
  (∀ token api m s,
     localStorage (perform token api m s) !! k = localStorage s !! k)
  ∧ (∀ token api s,
       localStorage (complete api (checkout token (cartItems s)).2 s) !! k
       = localStorage s !! k)
  ∧ (∀ token api (storage : gmap string string) s,
       mount token api storage = Some s → localStorage s !! k = storage !! k).
Proof.
  intros Hk. split_and!.
  - intros token api m s. unfold perform.
    destruct (handle_own_key token api m (cartItems s)) as [Hbatch Hreject].
    by apply complete_other_key.
  - intros token api s. unfold checkout.
    destruct (Nat.eqb (length (cartItems s)) 0); simpl; [done|].
    destruct (handle_own_key token api ClearCart (cartItems s))
      as [Hbatch Hreject].
    by apply complete_other_key.
  - intros token api storage s. unfold mount, mount_load, load_savedCart.
    destruct (truthy (storage !! "cartItems")); simpl.
    + destruct (storage !! "cartItems" ≫= JSON_parse) as [parsed|]; [|done].
      simpl. intros [= <-].
      rewrite settle_other_key by (done || apply syncFromServer_own_key).
      by rewrite settle_other_key.
    + intros [= <-].
      rewrite settle_other_key by (done || apply syncFromServer_own_key).
      by rewrite settle_other_key.
Qed.

(** ** The total in every state *)

Lemma mount_load_totalled (storage : gmap string string) s :
  mount_load storage = Some s → totalled s.
Proof.
  unfold mount_load, load_savedCart.
  destruct (truthy (storage !! "cartItems")); simpl.
  - destruct (storage !! "cartItems" ≫= JSON_parse) as [parsed|]; [|done].
    simpl. intros [= <-]. by apply settle_totalled.
  - by intros [= <-].
Qed.

Lemma mount_totalled token api (storage : gmap string string) s :
  mount token api storage = Some s → totalled s.
Proof.
  unfold mount. destruct (mount_load storage) as [s1|] eqn:Hload; [|done].
  simpl. intros [= <-].
  destruct (syncFromServer_cases token api (localStorage s1)) as [-> | Hset].
  - rewrite settle_nil. by apply mount_load_totalled with storage.
  - by apply settle_totalled.
Qed.

Lemma reachable_totalled s : reachable s → totalled s.
Proof.
  intros Hreach.
  induction Hreach as [storage s Hload | token api storage s Hmount
                      | token api m s _ IH | token api m s _ IH
                      | token api s _ IH].
  - by apply mount_load_totalled with storage.
  - by apply mount_totalled with token api storage.
  - apply settle_totalled, handle_sets_cart.
  - apply (complete_settled api _ s totalled).
    + apply handle_sets_cart.
    + intros p. apply reject_sets_cart.
    + intros b s0. apply settle_totalled.
  - unfold checkout. destruct (Nat.eqb (length (cartItems s)) 0); simpl.
    + done.
    + apply (complete_settled api _ s totalled).
      * apply (handle_sets_cart token api ClearCart).
      * intros p. apply (reject_sets_cart token api ClearCart).
      * intros b s0. apply settle_totalled.
Qed.

(** What [addToCart] hands to [setTotalPrice] last is the total of the list
    it was rendered with. *)
Lemma addToCart_commit_total token api product (quantity : option num) s :
  totalPrice
    (commit (batch (handle token api (AddToCart product quantity) (cartItems s)))
       s)
  = reduce_total (cartItems s).
Proof.
  simpl. unfold addToCart, removeFromCart. repeat case_match; done.
Qed.

(** X2. Once the [cartItems] effect has run, the total price is the sum of
    price times quantity over the lines of the cart: so it is in every state
    the provider settles in, from mount on.  It is not so in the render that
    comes before the effect: what [addToCart] commits is the new cart with
    the sum of the lines of the cart before, whatever was added. *)
Theorem total_once_effect_has_run :
  (∀ s, reachable s → sums_to (cartItems s) (totalPrice s))
  ∧ (∀ token api product (quantity : option num) s,
       sums_to (cartItems s)
         (totalPrice
            (commit
               (batch (handle token api (AddToCart product quantity)
                         (cartItems s)))
               s))).
Proof.
  split.
  - intros s Hreach. rewrite (reachable_totalled s Hreach).
    apply reduce_total_sums.
  - intros token api product quantity s. rewrite addToCart_commit_total.
    apply reduce_total_sums.
Qed.

(** ** Guests *)

Lemma complete_accepted api (e : effects) s :
  accepted api e → complete api e s = optimistic e s.
Proof.
  intros Haccepted. unfold complete.
  destruct (call e) as [p|] eqn:Hcall; [|done].
  specialize (Haccepted p Hcall). by destruct (api (sent p)).
Qed.

Lemma guest_handle token api api' m items :
  truthy token = false →
  call (handle token api m items) = None
  ∧ handle token api m items = handle token api' m items.
Proof.
  intros Htoken. destruct m; simpl;
    unfold addToCart, updateQuantity, clearCart, removeFromCart;
    rewrite ?Htoken; repeat case_match; done.
Qed.

(** X3. Without a session token no handler calls the server: every
    mutation leaves no call in flight, and the state it ends in does not
    depend on what the server would answer. *)
Theorem guest_never_calls_server token :
  truthy token = false →
  (∀ api m items, call (handle token api m items) = None)
  ∧ (∀ api api' m s, perform token api m s = perform token api' m s)
  ∧ (∀ api m s,
       perform token api m s = optimistic (handle token api m (cartItems s)) s).
Proof.
  intros Htoken. split_and!.
  - intros api m items. by apply (guest_handle token api api).
  - intros api api' m s. unfold perform, complete.
    destruct (guest_handle token api api' m (cartItems s) Htoken)
      as [Hcall <-].
    by rewrite Hcall.
  - intros api m s. unfold perform, complete.
    destruct (guest_handle token api api m (cartItems s) Htoken) as [-> _].
    done.
Qed.

(** ** Mount *)

(** X5. When there is no server cart (no session token, a [GET] that is
    rejected, or an answer without cart items), mount ends in the state it
    loaded from the storage. *)
Theorem mount_without_server_cart token api (storage : gmap string string) :
  server_cart token api = None →
  mount token api storage = mount_load storage.
Proof.
  intros Hserver. unfold mount.
  destruct (mount_load storage) as [s1|]; [|done]. simpl.
  assert (Hsync : syncFromServer token api (localStorage s1) = []).
  { unfold server_cart in Hserver. unfold syncFromServer.
    destruct (truthy token); [|done].
    by destruct (api GET_cart) as [[serverItems|]|]. }
  by rewrite Hsync.
Qed.

(** ** Checkout with a failing server *)

(** X6. With a session, when the server rejects the [DELETE /api/cart] of
    the checkout, [checkout] has resolved with success all the same, and the
    cart is rolled back: the lines are there again, with their total. *)
Theorem checkout_succeeds_though_rolled_back token api s :
  truthy token = true →
  cartItems s ≠ [] →
  api DELETE_cart = Rejected →
  (checkout token (cartItems s)).1
  = Fulfilled (mkReceipt true "Checkout successful!")
  ∧ cartItems (optimistic (checkout token (cartItems s)).2 s) = []
  ∧ rolled_back s (complete api (checkout token (cartItems s)).2 s).
Proof.
  intros Htoken Hfull Hreply. unfold checkout.
  destruct (cartItems s) as [|it items] eqn:Hcart; [done|]. simpl.
  split; [done|]. unfold complete, optimistic, clearCart. rewrite Htoken.
  simpl. rewrite Hreply. run_settle. split; [done|].
  rewrite <- Hcart. apply rolled_back_intro.
Qed.

(** ** Removing lines *)

Lemma removeFromCart_state token productId s :
  optimistic (removeFromCart token productId (cartItems s)) s
  = let kept := filter (λ it, Item.id it ≠ productId) (cartItems s) in
    mkState kept (reduce_total kept)
      (<["cartItems" := JSON_stringify kept]> (localStorage s)).
Proof.
  unfold optimistic. rewrite settle_set by done. unfold commit. simpl.
  by rewrite filter_other_ids.
Qed.

Lemma filter_absent_id productId items :
  (∀ it, it ∈ items → Item.id it ≠ productId) →
  filter (λ it, Item.id it ≠ productId) items = items.
Proof.
  induction items as [|it items IH]; intros Habsent; [done|].
  rewrite filter_cons_True by (apply Habsent; left).
  rewrite IH; [done|]. intros it' Hit'. apply Habsent. by right.
Qed.

(** X7. Removing is idempotent and the order of two removals does not
    matter: removing a product twice ends in the state of removing it once,
    and removing two products ends in the same state either way.  Removing
    a product that has no line leaves the list of lines as it was. *)
Theorem removeFromCart_idempotent_commutative token (a b : option string) s :
  let remove productId s :=
    optimistic (removeFromCart token productId (cartItems s)) s in
  remove a (remove a s) = remove a s
  ∧ remove a (remove b s) = remove b (remove a s)
  ∧ ((∀ it, it ∈ cartItems s → Item.id it ≠ a) →
     cartItems (remove a s) = cartItems s).
Proof.
  cbv beta zeta. rewrite !removeFromCart_state. cbv zeta. simpl. split_and!.
  - rewrite insert_insert_eq.
    by rewrite list_filter_filter_l by done.
  - rewrite !insert_insert_eq, !list_filter_filter.
    by rewrite (list_filter_iff
                  (λ it, Item.id it ≠ a ∧ Item.id it ≠ b)
                  (λ it, Item.id it ≠ b ∧ Item.id it ≠ a)) by tauto.
  - apply filter_absent_id.
Qed.

(** ** Setting a quantity *)

Lemma map_set_quantity productId (q : num) items :
  map (λ it, if strict_eq (Item.id it) productId
             then Item.with_quantity it q else it) items
  = set_quantity productId q items.
Proof.
  unfold set_quantity, strict_eq.
  induction items as [|it items IH]; [done|]. simpl. rewrite IH.
  by destruct (decide (Item.id it = productId));
    [rewrite bool_decide_eq_true_2 by done
    |rewrite bool_decide_eq_false_2 by done].
Qed.

Lemma ids_set_quantity productId (q : num) items :
  ids (set_quantity productId q items) = ids items.
Proof.
  unfold ids, set_quantity. rewrite <- list_fmap_compose.
  apply list_fmap_ext. intros i it _. simpl. by case_decide.
Qed.




(** ** Adding a product *)

Lemma find_none_absent productId items :
  find (λ it, strict_eq (Item.id it) productId) items = None →
  ∀ it, it ∈ items → Item.id it ≠ productId.
Proof.
  intros Hfind it Hit%list_elem_of_In.
  pose proof (find_none _ _ Hfind it Hit) as Hne. simpl in Hne.
  by apply bool_decide_eq_false in Hne.
Qed.

(** The commands of the local part of [addToCart] do not depend on the
    token: it only decides whether the removal calls the server. *)
Lemma addToCart_local_batch token api api' product (quantity : option num)
    items :
  truthy token = false
  ∨ api (POST_cart_items (js_or (Product._id product) (Product.id product))
           (default num_one quantity)) = Rejected →
  batch (addToCart token api product quantity items)
  = batch (addToCart None api' product quantity items).
Proof.
  intros Hlocal. unfold addToCart. simpl.
  destruct (truthy token) eqn:Htoken.
  - destruct Hlocal as [|Hreply]; [done|]. rewrite Hreply.
    repeat case_match; done.
  - repeat case_match; done.
Qed.

(** X9. After a [POST] that the server rejects, [addToCart] updates the
    local cart as it does for a guest: the state the user sees is the one a
    guest would see. *)
Theorem addToCart_falls_back_to_local_cart token api api' product
    (quantity : option num) s :
  api (POST_cart_items (js_or (Product._id product) (Product.id product))
         (default num_one quantity)) = Rejected →
  optimistic (handle token api (AddToCart product quantity) (cartItems s)) s
  = optimistic (handle None api' (AddToCart product quantity) (cartItems s)) s.
Proof.
  intros Hreply. unfold optimistic. simpl.
  by rewrite (addToCart_local_batch token api api') by by right.
Qed.

(** X10. In the local part of [addToCart] (a guest, or a rejected [POST]), a
    product that has no line in the cart is added as a new last line, with
    the quantity given (1 when none is given, and also when it is [<= 0]);
    the lines before it stay, and the total grows by price times quantity. *)
Theorem addToCart_appends_new_product token api product
    (quantity : option num) s :
  truthy token = false
  ∨ api (POST_cart_items (js_or (Product._id product) (Product.id product))
           (default num_one quantity)) = Rejected →
  find (λ it, strict_eq (Item.id it) (Product.id product)) (cartItems s)
  = None →
  let s' :=
    optimistic (handle token api (AddToCart product quantity) (cartItems s)) s in
  cartItems s'
  = cartItems s ++ [Item.of_product product (default num_one quantity)]
  ∧ totalPrice s'
    = (reduce_total (cartItems s)
       + Product.price product * default num_one quantity)%num.
Proof.
  intros Hlocal Hfind. cbv zeta. unfold optimistic. simpl.
  rewrite (addToCart_local_batch token api api) by done.
  unfold addToCart. simpl. rewrite Hfind. simpl. run_settle.
  split; [done|]. by rewrite reduce_total_snoc.
Qed.

(** X11. With a session and a [POST] that the server accepts, [addToCart]
    never removes a line and calls the server no further: the lines whose
    id is [product._id || product.id] get the quantity of the first of them
    plus the added one, also when that is [<= 0]; without such a line, a
    line with that id, the title [product.name || product.title], the price
    and the quantity is added last. *)
Theorem addToCart_with_session_keeps_lines token api product
    (quantity : option num) s r :
  let productId := js_or (Product._id product) (Product.id product) in
  let q := default num_one quantity in
  let e := handle token api (AddToCart product quantity) (cartItems s) in
  truthy token = true →
  api (POST_cart_items productId q) = Resolved r →
  call e = None
  ∧ (∀ existing,
       find (λ it, strict_eq (Item.id it) productId) (cartItems s)
       = Some existing →
       cartItems (optimistic e s)
       = set_quantity productId (Item.quantity existing + q)%num (cartItems s))
  ∧ (find (λ it, strict_eq (Item.id it) productId) (cartItems s) = None →
     cartItems (optimistic e s)
     = cartItems s
       ++ [Item.mk None productId None
             (js_or (Product.name product) (Product.title product))
             (Product.price product) q])
  ∧ (length (cartItems s) ≤ length (cartItems (optimistic e s)))%nat.
Proof.
  intros productId q e Htoken Hreply. subst e. simpl. unfold addToCart.
  rewrite Htoken. fold productId. fold q. rewrite Hreply.
  destruct (find (λ it, strict_eq (Item.id it) productId) (cartItems s))
    as [existing|] eqn:Hfind.
  - unfold optimistic. run_settle. rewrite map_set_quantity.
    split_and!; try done.
    + by intros existing' [= <-].
    + unfold set_quantity. by rewrite length_fmap.
  - unfold optimistic. run_settle. split_and!; try done.
    rewrite length_app. lia.
Qed.

(** X12. For a guest, adding a product that has no line in the cart and
    then removing it is a round trip: from a state that has its total and
    is saved, the provider is back in that very state. *)
Theorem addToCart_then_removeFromCart token api product
    (quantity : option num) s :
  truthy token = false →
  find (λ it, strict_eq (Item.id it) (Product.id product)) (cartItems s)
  = None →
  totalled s → persisted s →
  perform token api (RemoveFromCart (Product.id product))
    (perform token api (AddToCart product quantity) s)
  = s.
Proof.
  intros Htoken Hfind Htotal Hsaved.
  assert (Hperform : ∀ m s0,
    perform token api m s0 = optimistic (handle token api m (cartItems s0)) s0).
  { intros m s0. unfold perform, complete.
    by destruct (guest_handle token api api m (cartItems s0) Htoken) as [-> _]. }
  rewrite !Hperform.
  change (handle token api (RemoveFromCart (Product.id product)) ?items)
    with (removeFromCart token (Product.id product) items).
  rewrite removeFromCart_state. cbv zeta.
  assert (Hadded :
    optimistic (handle token api (AddToCart product quantity) (cartItems s)) s
    = mkState
        (cartItems s ++ [Item.of_product product (default num_one quantity)])
        (reduce_total
           (cartItems s ++ [Item.of_product product (default num_one quantity)]))
        (<["cartItems" :=
             JSON_stringify
               (cartItems s
                ++ [Item.of_product product (default num_one quantity)])]>
           (localStorage s))).
  { unfold optimistic. simpl. unfold addToCart. rewrite Htoken, Hfind.
    simpl. by run_settle. }
  rewrite Hadded. simpl.
  rewrite filter_app, filter_absent_id by by apply find_none_absent.
  rewrite filter_cons_False by (simpl; by intros Hne).
  rewrite filter_nil, app_nil_r.
  by apply (rolled_back_intro s).
Qed.

(** X13. In the local part of [addToCart] (a guest, or a rejected [POST]), a
    product that has a line in the cart gets no second line: when the
    quantity of its first line plus the added one is above zero, that sum is
    set on its lines, and the ids of the cart stay as they were. *)
Theorem addToCart_raises_existing_line token api product
    (quantity : option num) s existing :
  truthy token = false
  ∨ api (POST_cart_items (js_or (Product._id product) (Product.id product))
           (default num_one quantity)) = Rejected →
  find (λ it, strict_eq (Item.id it) (Product.id product)) (cartItems s)
  = Some existing →
  (Item.quantity existing + default num_one quantity <= num_zero)%num = false →
  let s' :=
    optimistic (handle token api (AddToCart product quantity) (cartItems s)) s in
  cartItems s'
  = set_quantity (Product.id product)
      (Item.quantity existing + default num_one quantity)%num (cartItems s)
  ∧ ids (cartItems s') = ids (cartItems s).
Proof.
  intros Hlocal Hfind Hpositive. cbv zeta.
  assert (Hcart :
    cartItems
      (optimistic (handle token api (AddToCart product quantity) (cartItems s)) s)
    = set_quantity (Product.id product)
        (Item.quantity existing + default num_one quantity)%num (cartItems s)).
  { unfold optimistic. simpl.
    rewrite (addToCart_local_batch token api api) by done.
    unfold addToCart. simpl. rewrite Hfind, Hpositive. run_settle.
    apply map_set_quantity. }
  rewrite Hcart. split; [done|]. apply ids_set_quantity.
Qed.

(** ** One line for each product *)

Lemma distinct_filter productId items :
  distinct_ids items →
  distinct_ids
    (List.filter (λ it, negb (strict_eq (Item.id it) productId)) items).
Proof.
  unfold distinct_ids, ids. rewrite filter_other_ids.
  intros Hdistinct. eapply sublist_NoDup; [done|].
  apply fmap_sublist, sublist_filter.
Qed.

Lemma distinct_map productId (q : num) items :
  distinct_ids items →
  distinct_ids
    (map (λ it, if strict_eq (Item.id it) productId
                then Item.with_quantity it q else it) items).
Proof.
  unfold distinct_ids. by rewrite map_set_quantity, ids_set_quantity.
Qed.

Lemma distinct_snoc productId items (it : item) :
  find (λ it, strict_eq (Item.id it) productId) items = None →
  Item.id it = productId →
  distinct_ids items → distinct_ids (items ++ [it]).
Proof.
  intros Hfind Hid Hdistinct. unfold distinct_ids, ids in *.
  rewrite fmap_app. apply NoDup_app. split_and!; [done| |apply NoDup_singleton].
  intros x (it0 & -> & Hit0)%list_elem_of_fmap Hx.
  apply list_elem_of_singleton in Hx.
  apply (find_none_absent _ _ Hfind it0 Hit0). congruence.
Qed.

Lemma optimistic_distinct token api m s :
  distinct_ids (cartItems s) →
  distinct_ids (cartItems (optimistic (handle token api m (cartItems s)) s)).
Proof.
  intros Hdistinct. unfold optimistic.
  rewrite settle_set by apply handle_sets_cart. simpl.
  destruct m; simpl;
    unfold addToCart, updateQuantity, clearCart, removeFromCart;
    repeat case_match; unfold commit; simpl;
    first [ by apply distinct_filter
          | by apply distinct_map
          | by eapply distinct_snoc
          | apply NoDup_nil_2 ].
Qed.

(** X14. One mutation, called from the current render, makes no two lines
    with the same id: when the ids of the lines are pairwise distinct, they
    still are after [addToCart], [removeFromCart], [updateQuantity] or
    [clearCart], with or without a session and whatever the server answers.
    This is about ids, and about one call on the render it closes over: a
    product can still come to lie on two lines with different ids, since the
    session part of [addToCart] files it under [product._id || product.id]
    and the local part under [product.id]. *)
Theorem mutations_keep_ids_distinct token api (m : mutation) s :
  distinct_ids (cartItems s) →
  distinct_ids (cartItems (perform token api m s)).
Proof.
  intros Hdistinct. unfold perform, complete.
  destruct (call (handle token api m (cartItems s))) as [p|] eqn:Hcall;
    [|by apply optimistic_distinct].
  destruct (api (sent p)); [by apply optimistic_distinct|].
  by destruct (rollback_whenever token api m s p
                 (optimistic (handle token api m (cartItems s)) s) Hcall)
    as [-> _].
Qed.

(** ** Clearing *)

(** X15. [clearCart] ends, before any answer of the server, in the empty
    cart with total zero, and with the JSON of the empty list under the
    storage key: the guest's [removeItem] does not last, the effect writes
    the key again. *)
Theorem clearCart_leaves_empty_saved_cart token s :
  optimistic (clearCart token (cartItems s)) s
  = mkState [] num_zero
      (<["cartItems" := JSON_stringify []]> (localStorage s)).
Proof.
  unfold optimistic, clearCart. destruct (truthy token); run_settle.
  - done.
  - by rewrite insert_delete_eq.
Qed.

(** ** The lines of the server *)

(** X16. A line mapped from the server's cart always has a title: the first
    of [i.name], [i.product.name] and [i.product.title] that is a string
    that is not empty, and the empty string when there is none.  Its id is
    [product_id], and price and quantity are the server's. *)
Theorem serverItem_always_titled (i : ServerItem.t num) :
  let names :=
    [ServerItem.name i; ServerItem.product i ≫= Product.name;
     ServerItem.product i ≫= Product.title] in
  Item.title (serverItem i)
  = Some (default "" (default None (head (List.filter truthy names))))
  ∧ Item.id (serverItem i) = ServerItem.product_id i
  ∧ Item.price (serverItem i) = ServerItem.price i
  ∧ Item.quantity (serverItem i) = ServerItem.quantity i.
Proof.
  cbv zeta. split_and!; try done. unfold serverItem, js_or. simpl.
  destruct (truthy (ServerItem.name i)) eqn:Hname; simpl.
  - rewrite !Hname. by destruct (ServerItem.name i).
  - destruct (truthy (ServerItem.product i ≫= Product.name)) eqn:Hpname; simpl.
    + rewrite !Hpname. by destruct (ServerItem.product i ≫= Product.name).
    + destruct (truthy (ServerItem.product i ≫= Product.title)) eqn:Htitle;
        simpl; [|done].
      by destruct (ServerItem.product i ≫= Product.title).
Qed.

End CartFurther.

(** * Further properties of the change-password form *)

Section FormFurther.
Import ChangePassword.

Implicit Types (s : form) (formData : gmap string jsstring) (text : jsstring).

(** ** The messages of [validateForm] *)

Lemma validateForm_lookup formData :
  (validateForm formData).1 !! "currentPassword"
  = currentPassword_message formData
  ∧ (validateForm formData).1 !! "newPassword" = newPassword_message formData
  ∧ (validateForm formData).1 !! "confirmPassword"
    = confirmPassword_message formData
  ∧ (∀ name, name ∉ fields → (validateForm formData).1 !! name = None).
Proof.
  unfold validateForm, currentPassword_message, newPassword_message,
    confirmPassword_message, fields.
  destruct (formData !! "currentPassword") as [[|c1 current]|];
    destruct (formData !! "newPassword") as [[|c2 new]|];
    destruct (formData !! "confirmPassword") as [[|c3 confirm]|];
    cbn [fst truthy_value negb default from_option id];
    rewrite ?password_rule_lines;
    repeat match goal with
           | |- context [if negb ?test then _ else _] =>
               destruct test; cbn [negb]
           end;
    repeat case_match; try done;
    (split_and!; [by vm_compute|by vm_compute|by vm_compute|]);
    intros name Hname;
    rewrite ?lookup_insert_ne, ?lookup_empty; try done;
    intros <-; apply Hname; set_solver.
Qed.

(** X17. [validateForm] records at most one message for each field, and
    none under any other name.  For the current password: that it is required,
    when it is empty.  For the new password, the first that applies of:
    required, shorter than 8 characters, no line with a lower case letter, an
    upper case letter and a digit.  For the confirmation: to be confirmed,
    when it is empty, or else that it does not match, when it differs from
    the new password, whether or not the new password passed its tests. *)
Theorem validateForm_messages formData :
  (validateForm formData).1 !! "currentPassword"
  = currentPassword_message formData
  ∧ (validateForm formData).1 !! "newPassword" = newPassword_message formData
  ∧ (validateForm formData).1 !! "confirmPassword"
    = confirmPassword_message formData
  ∧ (∀ name, name ∉ fields → (validateForm formData).1 !! name = None).
Proof. apply validateForm_lookup. Qed.

(** X18. What [validateForm] accepts, exactly: the current password is not
    empty, the new password has at least 8 code units and a line that
    contains a lower case letter, an upper case letter and a digit, and the
    confirmation equals the new password; and it returns [true] exactly when
    it records no message. *)
Theorem validateForm_accepts_exactly formData :
  ((validateForm formData).2 = true ↔ applied_rules formData)
  ∧ ((validateForm formData).2 = true ↔ (validateForm formData).1 = ∅).
Proof. split; [apply validateForm_applied | apply validateForm_no_errors]. Qed.

(** ** Submitting a form that is not valid *)

Lemma validateForm_valid_messages formData :
  (validateForm formData).2 = true
  ↔ currentPassword_message formData = None
    ∧ newPassword_message formData = None
    ∧ confirmPassword_message formData = None.
Proof.
  rewrite validateForm_tests, password_rule_lines.
  unfold currentPassword_message, newPassword_message, confirmPassword_message.
  destruct (formData !! "currentPassword") as [[|c1 current]|];
    destruct (formData !! "newPassword") as [[|c2 new]|];
    destruct (formData !! "confirmPassword") as [[|c3 confirm]|];
    cbn [truthy_value default from_option id];
    repeat match goal with
           | |- context [(length ?l <? 8)%nat] => destruct (length l <? 8)%nat
           | |- context [existsb has_all_three ?l] =>
               destruct (existsb has_all_three l)
           | |- context [bool_decide ?P] => destruct (bool_decide P)
           end;
    cbn [negb andb]; (split; [done|by intros (? & ? & ?)]).
Qed.

Lemma message_not_empty formData m :
  currentPassword_message formData = Some m
  ∨ newPassword_message formData = Some m
  ∨ confirmPassword_message formData = Some m →
  truthy (Some m) = true.
Proof.
  unfold currentPassword_message, newPassword_message, confirmPassword_message.
  intros [Hm|[Hm|Hm]]; repeat case_match; by simplify_eq.
Qed.

Lemma handleSubmit_invalid_state s :
  (validateForm (formData s)).2 = false →
  handleSubmit s
  = mkForm (loading s) "" "" (formData s) (validateForm (formData s)).1.
Proof.
  intros Hinvalid. unfold handleSubmit.
  change (formData (setSuccess "" (setError "" s))) with (formData s).
  destruct (validateForm (formData s)) as [newErrors valid].
  simpl in Hinvalid. by subst valid.
Qed.

(** X19. Submitting a form that does not pass [validateForm] leaves the
    fields and the loading flag as they were, empties the success and the
    error message, and shows the messages of [validateForm]: at least one
    of the three fields is then shown in error.  Submitting it again changes
    nothing more. *)
Theorem handleSubmit_invalid_form s :
  (validateForm (formData s)).2 = false →
  handleSubmit s
  = mkForm (loading s) "" "" (formData s) (validateForm (formData s)).1
  ∧ (∃ name, name ∈ fields ∧ field_error name (handleSubmit s) = true)
  ∧ handleSubmit (handleSubmit s) = handleSubmit s.
Proof.
  intros Hinvalid. rewrite !(handleSubmit_invalid_state s Hinvalid).
  split_and!; [done| |by rewrite handleSubmit_invalid_state].
  destruct (validateForm_lookup (formData s)) as (Hcurrent & Hnew & Hconfirm & _).
  unfold field_error, fields. cbn [errors].
  destruct (currentPassword_message (formData s)) as [m|] eqn:Hm1.
  { exists "currentPassword". split; [set_solver|]. rewrite Hcurrent.
    apply (message_not_empty (formData s)). by left. }
  destruct (newPassword_message (formData s)) as [m|] eqn:Hm2.
  { exists "newPassword". split; [set_solver|]. rewrite Hnew.
    apply (message_not_empty (formData s)). by right; left. }
  destruct (confirmPassword_message (formData s)) as [m|] eqn:Hm3.
  { exists "confirmPassword". split; [set_solver|]. rewrite Hconfirm.
    apply (message_not_empty (formData s)). by right; right. }
  assert ((validateForm (formData s)).2 = true) as Hvalid
    by by apply validateForm_valid_messages.
  congruence.
Qed.

(** X20. After a submission that succeeded the form is blank again, and a
    blank form is not valid: submitting once more empties the success
    message and shows the three fields in error, each as required. *)
Theorem handleSubmit_twice s :
  (validateForm (formData s)).2 = true →
  handleSubmit (handleSubmit s)
  = mkForm false "" "" blank
      (<["confirmPassword" := "Please confirm your new password"]>
         (<["newPassword" := "New password is required"]>
            (<["currentPassword" := "Current password is required"]> ∅)))
  ∧ Forall (λ name, field_error name (handleSubmit (handleSubmit s)) = true)
      fields.
Proof.
  intros Hvalid.
  assert (Hfirst : handleSubmit s
                   = mkForm false "Password changed successfully!" "" blank ∅).
  { unfold handleSubmit.
    change (formData (setSuccess "" (setError "" s))) with (formData s).
    destruct (validateForm (formData s)) as [newErrors valid] eqn:Hvalidate.
    simpl in Hvalid. subst valid.
    assert (newErrors = ∅) as ->.
    { change newErrors with (newErrors, true).1. rewrite <- Hvalidate.
      apply validateForm_no_errors. by rewrite Hvalidate. }
    done. }
  rewrite Hfirst. split; [by vm_compute|].
  repeat constructor; by vm_compute.
Qed.

(** ** Typing *)

(** X21. Typing twice in a field keeps the last value, and typing in two
    different fields gives the same form in either order. *)
Theorem handleChange_composes (n m : string) (v w : jsstring) s :
  handleChange n w (handleChange n v s) = handleChange n w s
  ∧ (n ≠ m →
     handleChange n v (handleChange m w s)
     = handleChange m w (handleChange n v s)).
Proof.
  split.
  - unfold handleChange.
    destruct (truthy (errors s !! n)) eqn:Hn; simpl.
    + rewrite lookup_insert_eq. simpl.
      unfold setFormData. simpl. by rewrite insert_insert_eq.
    + rewrite Hn. unfold setFormData. simpl. by rewrite insert_insert_eq.
  - intros Hne. unfold handleChange.
    destruct (truthy (errors s !! n)) eqn:Hn;
      destruct (truthy (errors s !! m)) eqn:Hm; simpl;
      rewrite ?lookup_insert_ne by done; rewrite ?Hn, ?Hm;
      unfold setErrors, setFormData; simpl; f_equal;
      by rewrite insert_insert_ne.
Qed.

(** X22. Typing in a field takes its error mark away and never marks a
    field: after [handleChange] the field typed in is not shown in error,
    and a field shown in error was shown in error before. *)
Theorem handleChange_only_unmarks (name : string) (value : jsstring) s :
  field_error name (handleChange name value s) = false
  ∧ (∀ m, field_error m (handleChange name value s) = true →
          field_error m s = true ∧ m ≠ name).
Proof.
  unfold field_error, handleChange.
  destruct (truthy (errors s !! name)) eqn:Hname; simpl.
  - rewrite lookup_insert_eq. split; [done|]. intros m.
    destruct (decide (m = name)) as [->|Hm].
    + by rewrite lookup_insert_eq.
    + by rewrite lookup_insert_ne.
  - split; [done|]. intros m Hmark. split; [done|]. intros ->. congruence.
Qed.

End FormFurther.

(** * The further statements at work *)

Section FurtherWitnesses.
Import Examples.

Lemma other_storage_keys_untouched_witness :
  "token" ≠ "cartItems"
  ∧ localStorage (perform session failing ClearCart signed_in) !! "token"
    = Some "eyJhbGciOi"
  ∧ localStorage (perform guest serving (AddToCart mug_product None) signed_in)
      !! "token"
    = Some "eyJhbGciOi".
Proof.
  assert (Hkey : "token" ≠ "cartItems") by discriminate.
  destruct (@other_storage_keys_untouched Z _ _ "token" Hkey)
    as (Hperform & _ & _).
  split; [exact Hkey|]. split.
  - rewrite Hperform. vm_compute; reflexivity.
  - rewrite Hperform. vm_compute; reflexivity.
Defined.

Lemma total_once_effect_has_run_witness :
  mount session serving saved_storage = Some mounted
  ∧ totalPrice (perform guest serving (AddToCart mug_product (Some 2%Z)) mounted)
    = 59%Z
  ∧ sums_to
      (cartItems
         (perform guest serving (AddToCart mug_product (Some 2%Z)) mounted))
      59%Z.
Proof.
  destruct (@total_once_effect_has_run Z _ _) as [Hsettled _].
  assert (Hmount : mount session serving saved_storage = Some mounted)
    by (vm_compute; reflexivity).
  assert (Htotal :
    totalPrice (perform guest serving (AddToCart mug_product (Some 2%Z)) mounted)
    = 59%Z) by (vm_compute; reflexivity).
  split; [exact Hmount|]. split; [exact Htotal|].
  rewrite <- Htotal.
  apply (Hsettled
           (perform guest serving (AddToCart mug_product (Some 2%Z)) mounted)).
  apply reach_perform. exact (reach_mount _ _ _ _ Hmount).
Defined.

Lemma guest_never_calls_server_witness :
  truthy guest = false
  ∧ call (handle guest failing ClearCart cart) = None
  ∧ perform guest failing (UpdateQuantity (Some "p1") 7%Z) shop
    = perform guest serving (UpdateQuantity (Some "p1") 7%Z) shop.
Proof.
  destruct (@guest_never_calls_server Z _ _ guest eq_refl)
    as (Hcall & Hsame & _).
  split; [reflexivity|]. split; [apply Hcall | apply Hsame].
Defined.

Lemma mount_without_server_cart_witness :
  server_cart guest serving = None
  ∧ server_cart session failing = None
  ∧ mount guest serving saved_storage = mount_load saved_storage
  ∧ mount session failing saved_storage = mount_load saved_storage.
Proof.
  split; [reflexivity|]. split; [reflexivity|]. split.
  - apply mount_without_server_cart. reflexivity.
  - apply mount_without_server_cart. reflexivity.
Defined.

Lemma checkout_succeeds_though_rolled_back_witness :
  truthy session = true
  ∧ cartItems shop ≠ []
  ∧ failing DELETE_cart = Rejected
  ∧ (checkout session (cartItems shop)).1
    = Fulfilled (mkReceipt true "Checkout successful!")
  ∧ cartItems (complete failing (checkout session (cartItems shop)).2 shop)
    = cart.
Proof.
  assert (Hfull : cartItems shop ≠ []) by discriminate.
  destruct (checkout_succeeds_though_rolled_back session failing shop
              eq_refl Hfull eq_refl) as (Hresolved & _ & Hback & _).
  split; [reflexivity|]. split; [exact Hfull|]. split; [reflexivity|].
  split; [exact Hresolved | exact Hback].
Defined.

Lemma removeFromCart_idempotent_commutative_witness :
  (∀ it, it ∈ cartItems shop → Item.id it ≠ Some "p5")
  ∧ cartItems (optimistic (removeFromCart guest (Some "p5") (cartItems shop)) shop)
    = cart.
Proof.
  assert (Habsent : ∀ it, it ∈ cartItems shop → Item.id it ≠ Some "p5").
  { intros it Hit. apply list_elem_of_In in Hit.
    destruct Hit as [<-|[<-|[]]]; discriminate. }
  destruct (removeFromCart_idempotent_commutative guest (Some "p5") (Some "p1")
              shop) as (_ & _ & Hsame).
  split; [exact Habsent | exact (Hsame Habsent)].
Defined.


Lemma addToCart_falls_back_to_local_cart_witness :
  failing (POST_cart_items (js_or (Product._id mug_product)
                              (Product.id mug_product))
             (default num_one (Some 2%Z))) = Rejected
  ∧ optimistic (handle session failing (AddToCart mug_product (Some 2%Z))
                  (cartItems shop)) shop
    = optimistic (handle None serving (AddToCart mug_product (Some 2%Z))
                    (cartItems shop)) shop.
Proof.
  split; [reflexivity|].
  apply addToCart_falls_back_to_local_cart. reflexivity.
Defined.

Lemma addToCart_appends_new_product_witness :
  truthy guest = false
  ∧ find (λ it, strict_eq (Item.id it) (Product.id mug_product)) (cartItems shop)
    = None
  ∧ cartItems (optimistic (handle guest serving (AddToCart mug_product None)
                             (cartItems shop)) shop)
    = cart ++ [Item.of_product mug_product 1%Z]
  ∧ totalPrice (optimistic (handle guest serving (AddToCart mug_product None)
                              (cartItems shop)) shop)
    = 52%Z.
Proof.
  destruct (addToCart_appends_new_product guest serving mug_product None shop
              (or_introl eq_refl) eq_refl) as [Hcart Htotal].
  split; [reflexivity|]. split; [reflexivity|].
  split; [exact Hcart|]. rewrite Htotal. reflexivity.
Defined.

Lemma addToCart_with_session_keeps_lines_witness :
  truthy session = true
  ∧ serving (POST_cart_items (js_or (Product._id pen_product)
                                (Product.id pen_product))
               (default num_one (Some (-5)%Z)))
    = Resolved (Some [cup])
  ∧ find (λ it, strict_eq (Item.id it)
                  (js_or (Product._id pen_product) (Product.id pen_product)))
      (cartItems shop)
    = Some pen
  ∧ cartItems (optimistic (handle session serving
                             (AddToCart pen_product (Some (-5)%Z))
                             (cartItems shop)) shop)
    = [Item.with_quantity pen (-3)%Z; ink].
Proof.
  destruct (addToCart_with_session_keeps_lines session serving pen_product
              (Some (-5)%Z) shop (Some [cup]) eq_refl eq_refl)
    as (_ & Hexisting & _ & _).
  split; [reflexivity|]. split; [reflexivity|]. split; [reflexivity|].
  rewrite (Hexisting pen eq_refl). vm_compute; reflexivity.
Defined.

Lemma addToCart_then_removeFromCart_witness :
  truthy guest = false
  ∧ find (λ it, strict_eq (Item.id it) (Product.id mug_product)) (cartItems shop)
    = None
  ∧ totalled shop ∧ persisted shop
  ∧ perform guest serving (RemoveFromCart (Product.id mug_product))
      (perform guest serving (AddToCart mug_product (Some 3%Z)) shop)
    = shop.
Proof.
  assert (Hsaved : persisted shop) by (vm_compute; reflexivity).
  split; [reflexivity|]. split; [reflexivity|]. split; [reflexivity|].
  split; [exact Hsaved|].
  apply addToCart_then_removeFromCart;
    [reflexivity | reflexivity | reflexivity | exact Hsaved].
Defined.

Lemma addToCart_raises_existing_line_witness :
  truthy guest = false
  ∧ find (λ it, strict_eq (Item.id it) (Product.id pen_product)) (cartItems shop)
    = Some pen
  ∧ num_le (num_add (Item.quantity pen) (default num_one None)) num_zero = false
  ∧ cartItems (optimistic (handle guest serving (AddToCart pen_product None)
                             (cartItems shop)) shop)
    = [Item.with_quantity pen 3%Z; ink].
Proof.
  assert (Hpositive :
    num_le (num_add (Item.quantity pen) (default num_one None)) num_zero
    = false) by reflexivity.
  destruct (addToCart_raises_existing_line guest serving pen_product None shop
              pen (or_introl eq_refl) eq_refl Hpositive) as [Hcart _].
  split; [reflexivity|]. split; [reflexivity|]. split; [exact Hpositive|].
  rewrite Hcart. vm_compute; reflexivity.
Defined.

Lemma mutations_keep_ids_distinct_witness :
  distinct_ids (cartItems shop)
  ∧ distinct_ids
      (cartItems (perform session failing (AddToCart mug_product None) shop)).
Proof.
  assert (Hdistinct : distinct_ids (cartItems shop)).
  { apply (bool_decide_unpack _). vm_compute. exact I. }
  split; [exact Hdistinct|].
  apply mutations_keep_ids_distinct. exact Hdistinct.
Defined.

Lemma validateForm_messages_witness :
  ("username" ∉ ChangePassword.fields)
  ∧ (ChangePassword.validateForm (ChangePassword.formData hasty)).1
      !! "username" = None
  ∧ (ChangePassword.validateForm (ChangePassword.formData hasty)).1
      !! "newPassword"
    = Some "Password must be at least 8 characters long".
Proof.
  destruct (validateForm_messages (ChangePassword.formData hasty))
    as (_ & Hnew & _ & Hother).
  assert (Hname : "username" ∉ ChangePassword.fields).
  { apply (bool_decide_unpack _). vm_compute. exact I. }
  split; [exact Hname|]. split; [exact (Hother "username" Hname)|].
  rewrite Hnew. vm_compute; reflexivity.
Defined.

Lemma handleSubmit_invalid_form_witness :
  (ChangePassword.validateForm (ChangePassword.formData hasty)).2 = false
  ∧ ChangePassword.formData (ChangePassword.handleSubmit hasty)
    = ChangePassword.formData hasty
  ∧ ChangePassword.success (ChangePassword.handleSubmit hasty) = ""
  ∧ ChangePassword.handleSubmit (ChangePassword.handleSubmit hasty)
    = ChangePassword.handleSubmit hasty.
Proof.
  assert (Hinvalid :
    (ChangePassword.validateForm (ChangePassword.formData hasty)).2 = false)
    by (vm_compute; reflexivity).
  destruct (handleSubmit_invalid_form hasty Hinvalid) as (Hstate & _ & Hagain).
  split; [exact Hinvalid|]. split; [by rewrite Hstate|].
  split; [by rewrite Hstate | exact Hagain].
Defined.

Lemma handleSubmit_twice_witness :
  (ChangePassword.validateForm (ChangePassword.formData filled)).2 = true
  ∧ ChangePassword.success
      (ChangePassword.handleSubmit (ChangePassword.handleSubmit filled)) = ""
  ∧ ChangePassword.field_error "newPassword"
      (ChangePassword.handleSubmit (ChangePassword.handleSubmit filled)) = true.
Proof.
  assert (Hvalid :
    (ChangePassword.validateForm (ChangePassword.formData filled)).2 = true)
    by (vm_compute; reflexivity).
  destruct (handleSubmit_twice filled Hvalid) as [Hstate _].
  split; [exact Hvalid|]. rewrite Hstate. split; vm_compute; reflexivity.
Defined.

Lemma handleChange_composes_witness :
  "newPassword" ≠ "confirmPassword"
  ∧ ChangePassword.handleChange "newPassword" (ChangePassword.js "Qwerty12")
      (ChangePassword.handleChange "confirmPassword"
         (ChangePassword.js "Qwerty12") filled)
    = ChangePassword.handleChange "confirmPassword" (ChangePassword.js "Qwerty12")
        (ChangePassword.handleChange "newPassword"
           (ChangePassword.js "Qwerty12") filled).
Proof.
  assert (Hne : "newPassword" ≠ "confirmPassword") by discriminate.
  destruct (handleChange_composes "newPassword" "confirmPassword"
              (ChangePassword.js "Qwerty12") (ChangePassword.js "Qwerty12")
              filled) as [_ Hswap].
  split; [exact Hne | exact (Hswap Hne)].
Defined.

Lemma handleChange_only_unmarks_witness :
  ChangePassword.field_error "newPassword" filled = true
  ∧ ChangePassword.field_error "newPassword"
      (ChangePassword.handleChange "newPassword" (ChangePassword.js "A") filled)
    = false
  ∧ ChangePassword.field_error "confirmPassword"
      (ChangePassword.handleChange "newPassword" (ChangePassword.js "A") filled)
    ≠ true.
Proof.
  destruct (handleChange_only_unmarks "newPassword" (ChangePassword.js "A")
              filled) as [Hunmarked Honly].
  split; [vm_compute; reflexivity|]. split; [exact Hunmarked|].
  intros Hmarked. destruct (Honly "confirmPassword" Hmarked) as [Hbefore _].
  vm_compute in Hbefore. discriminate.
Defined.

End FurtherWitnesses.
